(** * sagenb_export/sagenb_reader.py: the worksheet parser and its cell model

    A shallow embedding of [ComputeCell.ipython_input],
    [ComputeCell.plain_text_output] and [WorksheetParser], together with the
    fragments of Python's [str] and [re] behaviour these functions rely on. *)

From Stdlib Require Import String Ascii.
From Stdlib Require Import List NArith ZArith Lia Bool.
From Stdlib Require Decimal DecimalZ.
From Equations Require Import Equations.
Import ListNotations.

Set Implicit Arguments.

(** ** Python text

    A Python (unicode) string is a sequence of code points.  Code points are
    kept as [N], so that the line boundaries and the whitespace that lie
    outside ASCII (U+0085, U+2028, ...) are covered. *)

Module PyStr.

Abbreviation char := N (only parsing).
Abbreviation pystr := (list N) (only parsing).

(** Reads a string literal the way Python source does, for the one escape
    used in this development: backslash followed by n is U+000A. *)
Fixpoint py (s : string) : pystr :=
  match s with
  | EmptyString => []
  | String c r =>
      if N.eqb (N_of_ascii c) 92 then
        match r with
        | String d r' =>
            if N.eqb (N_of_ascii d) 110 then 10%N :: py r'
            else N_of_ascii c :: py r
        | EmptyString => [N_of_ascii c]
        end
      else N_of_ascii c :: py r
  end.

Definition char_in (c : char) (l : list N) : bool := existsb (N.eqb c) l.

(** [str.isspace] on one code point (the characters [str.strip] removes),
    as in the Unicode data of Python 3. *)
Definition is_space (c : char) : bool :=
  char_in c [9; 10; 11; 12; 13; 28; 29; 30; 31; 32; 133; 160; 5760;
             8232; 8233; 8239; 8287; 12288]%N
  || (N.leb 8192 c && N.leb c 8202).

(** The line boundaries of [str.splitlines]. *)
Definition is_linebreak (c : char) : bool :=
  char_in c [10; 11; 12; 13; 28; 29; 30; 133; 8232; 8233]%N.

Fixpoint eqb (s t : pystr) : bool :=
  match s, t with
  | [], [] => true
  | c :: s', d :: t' => N.eqb c d && eqb s' t'
  | _, _ => false
  end.

(** [s.startswith(p)] *)
Fixpoint startswith (s p : pystr) {struct p} : bool :=
  match p, s with
  | [], _ => true
  | d :: p', c :: s' => N.eqb c d && startswith s' p'
  | _ :: _, [] => false
  end.

Fixpoint lstrip (s : pystr) : pystr :=
  match s with
  | [] => []
  | c :: r => if is_space c then lstrip r else s
  end.

Definition rstrip (s : pystr) : pystr := rev (lstrip (rev s)).

(** [s.strip()] *)
Definition strip (s : pystr) : pystr := rstrip (lstrip s).

(** [s.splitlines(keepends)]: a line ends at a line boundary, CR LF counts
    as one boundary, and no empty last line is produced. *)
Fixpoint splitlines (keepends : bool) (s : pystr) : list pystr :=
  let ends t := if keepends then t else [] in
  match s with
  | [] => []
  | c :: r =>
      if is_linebreak c then
        match r with
        | d :: r' =>
            if N.eqb c 13 && N.eqb d 10
            then ends [c; d] :: splitlines keepends r'
            else ends [c] :: splitlines keepends r
        | [] => [ends [c]]
        end
      else
        match splitlines keepends r with
        | [] => [[c]]
        | l :: ls => (c :: l) :: ls
        end
  end.

(** [sep.join(l)] *)
Fixpoint join (sep : pystr) (l : list pystr) : pystr :=
  match l with
  | [] => []
  | [x] => x
  | x :: xs => x ++ sep ++ join sep xs
  end.

(** [s.find(sub)]: the lowest index where [sub] occurs, or -1. *)
Fixpoint find (s sub : pystr) : Z :=
  if startswith s sub then 0%Z
  else match s with
       | [] => (-1)%Z
       | _ :: r => let k := find r sub in
                   if (k <? 0)%Z then (-1)%Z else (k + 1)%Z
       end.

(** Slice bounds as Python clips them: a negative bound counts from the
    end, and every bound is clipped to the string. *)
Definition clip (s : pystr) (i : Z) : nat :=
  let n := Z.of_nat (length s) in
  Z.to_nat (Z.min n (if (i <? 0)%Z then Z.max 0 (n + i) else i)).

(** [s[:i]] and [s[i:]] *)
Definition slice_to (s : pystr) (i : Z) : pystr := firstn (clip s i) s.
Definition slice_from (s : pystr) (i : Z) : pystr := skipn (clip s i) s.

(** [s.replace(sub, '')] for a non-empty [sub]: occurrences are removed
    left to right and do not overlap; [skip] counts the characters of the
    occurrence being removed that are still to be passed over. *)
Fixpoint remove_from (sub : pystr) (skip : nat) (s : pystr) : pystr :=
  match s with
  | [] => []
  | c :: r =>
      match skip with
      | S k => remove_from sub k r
      | O => if startswith s sub then remove_from sub (length sub - 1) r
             else c :: remove_from sub 0 r
      end
  end.

Definition remove (s sub : pystr) : pystr := remove_from sub 0 s.

End PyStr.

Import PyStr.

Arguments is_space : simpl never.
Arguments is_linebreak : simpl never.

(** ** Outcomes of running Python code

    A call returns a value, raises one of the exceptions that occur in this
    module, or exhausts the fuel given to a [while] loop of the model. *)

Inductive exn : Type := IndexError | ValueError | AssertionError.

Inductive result (A : Type) : Type :=
| Ok (a : A)
| Raise (e : exn)
| NoFuel.
Arguments Raise {A} e.
Arguments NoFuel {A}.

(** ** The marker patterns [CELL_FRONT], [CELL_MID], [CELL_BACK]

    Each is used through [pattern.match(line)], which anchors at the start
    of the line. *)

Definition is_digit (c : char) : bool := N.leb 48 c && N.leb c 57.

(** The longest run of [[0-9]] at the head of [s], and what follows it. *)
Fixpoint span_digits (s : pystr) : pystr * pystr :=
  match s with
  | [] => ([], [])
  | c :: r =>
      if is_digit c then let (ds, t) := span_digits r in (c :: ds, t)
      else ([], s)
  end.

(** [$] without [re.MULTILINE]: the end of the string, or the position just
    before a newline that ends the string. *)
Definition at_dollar (s : pystr) : bool :=
  match s with
  | [] => true
  | [c] => N.eqb c 10
  | _ => false
  end.

Fixpoint strip_prefix (p s : pystr) {struct p} : option pystr :=
  match p, s with
  | [], _ => Some s
  | d :: p', c :: s' => if N.eqb c d then strip_prefix p' s' else None
  | _ :: _, [] => None
  end.

(** [CELL_FRONT.match(line)]: [None], or the text of group [index]. *)
Definition CELL_FRONT (line : pystr) : option pystr :=
  match strip_prefix (py "{{{id=") line with
  | None => None
  | Some r =>
      let (ds, t) := span_digits r in
      match t with
      | c :: t' => if N.eqb c 124 && at_dollar t' then Some ds else None
      | [] => None
      end
  end.

(** [CELL_MID.match(line) != None] *)
Definition CELL_MID (line : pystr) : bool :=
  match strip_prefix (py "///") line with
  | Some t => at_dollar t
  | None => false
  end.

(** [CELL_BACK.match(line) != None] *)
Definition CELL_BACK (line : pystr) : bool :=
  match strip_prefix (py "}}}") line with
  | Some t => at_dollar t
  | None => false
  end.

(** The decimal value of a run of ASCII digits. *)
Definition digits_value (ds : pystr) : Z :=
  fold_left (fun a c => (10 * a + Z.of_N (c - 48))%Z) ds 0%Z.

(** The number of decimal digits up to which the interpreter, in its
    default setting, converts between integers and text
    ([sys.int_info.default_max_str_digits]); beyond it both directions
    raise [ValueError]. *)
Definition int_max_str_digits : Z := 4300.

Definition within_limit (ds : pystr) : bool :=
  (Z.of_nat (length ds) <=? int_max_str_digits)%Z.

(** [int(ds)] on a run of ASCII digits, the only strings [CELL_FRONT]
    captures: the decimal value; [ValueError] on the empty run and on a run
    of more digits than the limit (every digit counts, leading zeros
    too). *)
Definition int (ds : pystr) : result Z :=
  match ds with
  | [] => Raise ValueError
  | _ => if within_limit ds then Ok (digits_value ds) else Raise ValueError
  end.

(** ** The cell model *)

Module ComputeCell.

Record t : Type := Build { index : Z; input : pystr; output : pystr }.

(** [ComputeCell.__init__], with its assertion. *)
Definition new (index : Z) (input output : pystr) : result t :=
  if (0 <=? index)%Z then Ok (Build index input output)
  else Raise AssertionError.

Definition noop_directives : list pystr :=
  [py "%auto"; py "%hide"; py "%hideall"; py "%save_server"].

(** [line in [...]] *)
Definition is_in (line : pystr) (l : list pystr) : bool :=
  existsb (PyStr.eqb line) l.

(** The first [for] loop of [ipython_input]: it consumes the iterator
    [lines] and returns [res] with what the iterator still holds. *)
Fixpoint directive_loop (lines : list pystr) (res : pystr)
  : pystr * list pystr :=
  match lines with
  | [] => (res, [])
  | line :: lines' =>
      if negb (startswith line (py "%")) then (res ++ line, lines')
      else
        let line := strip line in
        if is_in line noop_directives then directive_loop lines' res
        else directive_loop lines' (res ++ py "%" ++ line ++ py "\n")
  end.

(** The second [for] loop: [res += line] for what is left. *)
Fixpoint rest_loop (lines : list pystr) (res : pystr) : pystr :=
  match lines with
  | [] => res
  | line :: lines' => rest_loop lines' (res ++ line)
  end.

Definition ipython_input (self : t) : pystr :=
  let lines := splitlines true (input self) in
  let (res, lines) := directive_loop lines [] in
  rest_loop lines res.

Definition inspect {A : Type} (a : A) : {b : A | a = b} :=
  exist _ a eq_refl.

Lemma find_lower (s sub : pystr) : (-1 <= find s sub)%Z.
Proof.
  induction s as [|c r IH]; cbn [find].
  - destruct (startswith [] sub); lia.
  - destruct (startswith (c :: r) sub); [lia|].
    destruct (find r sub <? 0)%Z eqn:E; lia.
Qed.

Lemma slice_from_shorter (s : pystr) (j : Z) :
  s <> [] -> (0 <= j)%Z -> length (slice_from s (j + 7)) < length s.
Proof.
  intros Hs Hj. unfold slice_from, clip. rewrite length_skipn.
  destruct s as [|c r]; [congruence|]. simpl length.
  destruct (j + 7 <? 0)%Z eqn:E; [apply Z.ltb_lt in E; lia|]. lia.
Qed.

(** The [while len(s) > 0] loop of [plain_text_output]. *)
Equations? html_loop (s t : pystr) : pystr by wf (length s) lt :=
  html_loop [] t := t;
  html_loop (c :: r) t with inspect (find (c :: r) (py "<html>") =? -1)%Z := {
    | exist _ true _ := t ++ c :: r;
    | exist _ false _
        with inspect (find (c :: r) (py "</html>") =? -1)%Z := {
      | exist _ true _ :=
          t ++ slice_to (c :: r) (find (c :: r) (py "<html>"));
      | exist _ false Hj :=
          html_loop
            (slice_from (c :: r) (find (c :: r) (py "</html>") + 7))
            (t ++ slice_to (c :: r) (find (c :: r) (py "<html>"))) } }.
Proof.
  apply slice_from_shorter; [discriminate|].
  apply Z.eqb_neq in Hj. clear e.
  destruct (_ && _); [lia|].
  match goal with |- context [(?f <? 0)%Z] => destruct (Z.ltb_spec f 0) end;
    [congruence | lia].
Qed.

Definition plain_text_output (self : t) : pystr :=
  let t := html_loop (output self) [] in
  remove t (py "</html>").

End ComputeCell.

Inductive Cell : Type :=
| TextCell (input : pystr)
| Compute (c : ComputeCell.t).

(** ** The worksheet parser *)

Module WorksheetParser.

Record t : Type := Build {
  worksheet_lines : list pystr;
  pos : nat;
  index : Z
}.

(** Methods read and update [self] and may raise. *)
Definition M (A : Type) : Type := t -> result (A * t).

Definition ret {A : Type} (a : A) : M A := fun self => Ok (a, self).

Definition bind {A B : Type} (m : M A) (k : A -> M B) : M B :=
  fun self =>
    match m self with
    | Ok (a, self') => k a self'
    | Raise e => Raise e
    | NoFuel => NoFuel
    end.

Definition lift {A : Type} (r : result A) : M A :=
  fun self =>
    match r with
    | Ok a => Ok (a, self)
    | Raise e => Raise e
    | NoFuel => NoFuel
    end.

Notation "x <- m ;; k" := (bind m (fun x => k))
  (at level 61, m at next level, right associativity).
Notation "m ;;; k" := (bind m (fun _ => k))
  (at level 61, right associativity).

(** A generator additionally yields cells; what it yielded before an
    exception has already reached the consumer. *)
Definition Gen (A : Type) : Type := t -> list Cell * result (A * t).

Definition gret {A : Type} (a : A) : Gen A := fun self => ([], Ok (a, self)).

Definition gbind {A B : Type} (m : Gen A) (k : A -> Gen B) : Gen B :=
  fun self =>
    match m self with
    | (ys, Ok (a, self')) => let (zs, r) := k a self' in (ys ++ zs, r)
    | (ys, Raise e) => (ys, Raise e)
    | (ys, NoFuel) => (ys, NoFuel)
    end.

Definition call {A : Type} (m : M A) : Gen A := fun self => ([], m self).

Definition yield (c : Cell) : Gen unit := fun self => ([c], Ok (tt, self)).

Definition __init__ (worksheet_html : pystr) : t :=
  Build (splitlines false worksheet_html) 0 (-1).

(** [self.worksheet_lines[self.pos]]; [pos] is never negative. *)
Definition line : M pystr :=
  fun self =>
    match nth_error (worksheet_lines self) (pos self) with
    | Some l => Ok (l, self)
    | None => Raise IndexError
    end.

(** [self.pos += 1] *)
Definition forward : M unit :=
  fun self => Ok (tt, Build (worksheet_lines self) (pos self + 1) (index self)).

Definition set_index (i : Z) : M unit :=
  fun self => Ok (tt, Build (worksheet_lines self) (pos self) i).

Definition get_index : M Z := fun self => Ok (index self, self).

Definition get_line_and_forward : M pystr :=
  line <- line ;; forward ;;; ret line.

Definition is_finished : M bool :=
  fun self => Ok (length (worksheet_lines self) <=? pos self, self).

Definition is_cell_front : M bool :=
  l <- line ;;
  match CELL_FRONT l with
  | Some ds => i <- lift (int ds) ;; set_index i ;;; ret true
  | None => ret false
  end.

Definition is_cell_mid : M bool := l <- line ;; ret (CELL_MID l).

Definition is_cell_back : M bool := l <- line ;; ret (CELL_BACK l).

(** [a or b]: [b] is evaluated only when [a] is false. *)
Definition or_ (a b : M bool) : M bool :=
  x <- a ;; if x then ret true else b.

(** [assert c] *)
Definition assert_ (c : M bool) : M unit :=
  x <- c ;; if x then ret tt else lift (Raise AssertionError).

(** [while not stop: accumulator.append(self.get_line_and_forward())],
    the loop shared by the three readers. *)
Fixpoint accumulate (fuel : nat) (stop : M bool) (accumulator : list pystr)
  : M (list pystr) :=
  match fuel with
  | O => lift NoFuel
  | S fuel' =>
      x <- stop ;;
      if x then ret accumulator
      else l <- get_line_and_forward ;;
           accumulate fuel' stop (accumulator ++ [l])
  end.

Section Unescape.

(** [sagenb_export.unescape.unescape], which this module imports. *)
Variable unescape : pystr -> pystr.

Definition _try_read_text (fuel : nat) : M (option Cell) :=
  accumulator <- accumulate fuel (or_ is_cell_front is_finished) [] ;;
  let accumulator := strip (join (py "\n") accumulator) in
  match accumulator with
  | [] => ret None
  | _ => ret (Some (TextCell (unescape accumulator)))
  end.

Definition _read_cell_input (fuel : nat) : M pystr :=
  assert_ is_cell_front ;;;
  forward ;;;
  accumulator <- accumulate fuel (or_ is_cell_mid is_finished) [] ;;
  ret (unescape (strip (join (py "\n") accumulator))).

Definition _read_cell_output (fuel : nat) : M pystr :=
  assert_ is_cell_mid ;;;
  forward ;;;
  accumulator <- accumulate fuel (or_ is_cell_back is_finished) [] ;;
  ret (unescape (strip (join (py "\n") accumulator))).

Definition _read_cell (fuel : nat) : M Cell :=
  input <- _read_cell_input fuel ;;
  output <- _read_cell_output fuel ;;
  index <- get_index ;;
  c <- lift (ComputeCell.new index input output) ;;
  ret (Compute c).

Notation "x <~ m ;; k" := (gbind m (fun x => k))
  (at level 61, m at next level, right associativity).
Notation "m ~;; k" := (gbind m (fun _ => k))
  (at level 61, right associativity).

(** The body of the [while] loop of [__iter__]. *)
Definition iter_body (fuel : nat) : Gen unit :=
  text <~ call (_try_read_text fuel) ;;
  match text with
  | Some c => yield c
  | None => gret tt
  end ~;;
  c <~ call (_read_cell fuel) ;;
  yield c ~;;
  fin <~ call is_finished ;;
  if negb fin then call (assert_ is_cell_back) ~;; call forward
  else gret tt.

Fixpoint __iter__ (fuel : nat) : Gen unit :=
  match fuel with
  | O => call (lift NoFuel)
  | S fuel' =>
      fin <~ call is_finished ;;
      if negb fin then iter_body fuel ~;; __iter__ fuel'
      else gret tt
  end.

(** The cells a consumer of [WorksheetParser(worksheet_html)] receives, and
    how the iteration ends; every loop gets the fuel [fuel]. *)
Definition parse (fuel : nat) (worksheet_html : pystr)
  : list Cell * result unit :=
  match __iter__ fuel (__init__ worksheet_html) with
  | (ys, Ok _) => (ys, Ok tt)
  | (ys, Raise e) => (ys, Raise e)
  | (ys, NoFuel) => (ys, NoFuel)
  end.

(** [NotebookSageNB.cells] for the document [ws]. *)
Definition cells (ws : pystr) : list Cell * result unit :=
  parse (S (length (splitlines false ws))) ws.

End Unescape.

End WorksheetParser.

(** ** Specification-level definitions

    What the specification says in its own words, to be compared with the
    embedding above. *)

Module Spec.

(** The shape of a cell-open line: the literal prefix, one or more decimal
    digits [ds], a vertical bar, and nothing else. *)
Definition cell_open_shape (line ds : pystr) : Prop :=
  ds <> [] /\ forallb is_digit ds = true
  /\ line = py "{{{id=" ++ ds ++ py "|".

(** The directive rewrite over the lines of the input: a leading line that
    begins with a percent sign is dropped when, stripped, it is one of the
    legacy directives, and otherwise becomes a double-percent line ended by a
    newline; from the first line that does not begin with a percent sign
    on, everything is kept verbatim. *)
Fixpoint directive_rewrite (lines : list pystr) : pystr :=
  match lines with
  | [] => []
  | line :: rest =>
      if startswith line (py "%") then
        if ComputeCell.is_in (strip line) ComputeCell.noop_directives
        then directive_rewrite rest
        else py "%%" ++ tl (strip line) ++ py "\n" ++ directive_rewrite rest
      else line ++ concat rest
  end.

Fixpoint take_while {A : Type} (f : A -> bool) (l : list A) : list A :=
  match l with
  | [] => []
  | x :: r => if f x then x :: take_while f r else []
  end.

(** The leading double-percent block of a cell input, as lines. *)
Definition directive_block (s : pystr) : list pystr :=
  take_while (fun l => startswith l (py "%%")) (splitlines true s).

Lemma slice_from_le (s : pystr) (k : Z) :
  length (slice_from s k) <= length s.
Proof. unfold slice_from. rewrite length_skipn. lia. Qed.

(** The removal pass as the specification words it: find the next opening
    tag, and when there is none keep the rest; otherwise find the next
    closing tag after it, and when there is none drop from the opening tag
    to the end; otherwise drop everything from the opening tag through the
    closing tag and go on after the closing tag. *)
Equations? strip_regions (s : pystr) : pystr by wf (length s) lt :=
  strip_regions s with ComputeCell.inspect (find s (py "<html>") =? -1)%Z := {
    | exist _ true _ := s;
    | exist _ false _
        with ComputeCell.inspect
               (find (slice_from s (find s (py "<html>") + 6))
                     (py "</html>") =? -1)%Z := {
      | exist _ true _ := slice_to s (find s (py "<html>"));
      | exist _ false Hj :=
          slice_to s (find s (py "<html>"))
          ++ strip_regions
               (slice_from (slice_from s (find s (py "<html>") + 6))
                  (find (slice_from s (find s (py "<html>") + 6))
                        (py "</html>") + 7)) } }.
Proof.
  clear e. apply Z.eqb_neq in Hj.
  match goal with
  | |- length (slice_from ?a _) < _ => set (after := a) in *
  end.
  apply Nat.lt_le_trans with (length after); [|apply slice_from_le].
  apply ComputeCell.slice_from_shorter.
  - intros E. rewrite E in Hj. now apply Hj.
  - match goal with
    | |- (0 <= find _ ?tag)%Z =>
        pose proof (ComputeCell.find_lower after tag)
    end.
    lia.
Qed.

(** ... and afterwards every closing tag that is left is removed. *)
Definition visible_output (output : pystr) : pystr :=
  remove (strip_regions output) (py "</html>").

(** [a] can be obtained from [b] by deleting characters. *)
Fixpoint is_subsequence (a b : pystr) : bool :=
  match b with
  | [] => match a with [] => true | _ :: _ => false end
  | y :: b' =>
      match a with
      | [] => true
      | x :: a' =>
          if N.eqb x y then is_subsequence a' b' else is_subsequence a b'
      end
  end.

(** A well-formed stretch of a worksheet: narrative lines, a cell-open
    line with the digits [seg_digits], input lines, the mid marker, output
    lines and the close marker. *)
Record segment : Type := Segment {
  seg_text : list pystr;
  seg_digits : pystr;
  seg_input : list pystr;
  seg_output : list pystr
}.

Definition seg_lines (g : segment) : list pystr :=
  seg_text g
  ++ (py "{{{id=" ++ seg_digits g ++ py "|") :: seg_input g
  ++ py "///" :: seg_output g
  ++ [py "}}}"].

(** No narrative line is a cell-open line, no input line a mid marker and
    no output line a close marker; the digit run of the open marker is not
    empty and not longer than [int] converts. *)
Definition seg_wf (g : segment) : Prop :=
  Forall (fun l => CELL_FRONT l = None) (seg_text g)
  /\ seg_digits g <> [] /\ forallb is_digit (seg_digits g) = true
  /\ within_limit (seg_digits g) = true
  /\ Forall (fun l => CELL_MID l = false) (seg_input g)
  /\ Forall (fun l => CELL_BACK l = false) (seg_output g).

Definition trimmed (lines : list pystr) : pystr :=
  strip (join (py "\n") lines).

(** The cells of a segment, in document order: the narrative text when it
    is not blank, then the compute cell. *)
Definition seg_cells (unescape : pystr -> pystr) (g : segment) : list Cell :=
  match trimmed (seg_text g) with
  | [] => []
  | _ => [TextCell (unescape (trimmed (seg_text g)))]
  end
  ++ [Compute (ComputeCell.Build (digits_value (seg_digits g))
                 (unescape (trimmed (seg_input g)))
                 (unescape (trimmed (seg_output g))))].

End Spec.

(** The input of [self] replaced, as when a rewritten input is stored in a
    cell and rewritten again. *)
Definition with_input (self : ComputeCell.t) (input : pystr) : ComputeCell.t :=
  ComputeCell.Build (ComputeCell.index self) input (ComputeCell.output self).

Definition with_output (self : ComputeCell.t) (output : pystr) : ComputeCell.t :=
  ComputeCell.Build (ComputeCell.index self) (ComputeCell.input self) output.

(** Notions used to state and prove the properties of the rewrite. *)

Definition no_linebreak (s : pystr) : bool :=
  forallb (fun c => negb (is_linebreak c)) s.

(** A line of [splitlines(True)]: text free of line boundaries, then the
    boundary (if any), which is whitespace. *)
Definition line_shape (l : pystr) : Prop :=
  l <> [] /\
  exists body term,
    l = body ++ term /\ no_linebreak body = true
    /\ forallb is_space term = true.

(** What follows the double percent sign of a rewritten directive line. *)
Definition magic_body (b : pystr) : Prop :=
  no_linebreak b = true /\ rstrip (37%N :: b) = 37%N :: b.

Definition newline_ended (p : pystr) : pystr := p ++ py "\n".


(** ** Notions used in the proofs about the parser *)

Section ParserNotions.

Import WorksheetParser.

(** [returns Q r]: the call did not run out of fuel, did not fail an
    assertion, and if it returned, [Q] holds of the value and the state. *)
Definition returns {A : Type} (Q : A -> t -> Prop) (r : result (A * t))
  : Prop :=
  match r with
  | Ok (a, s) => Q a s
  | Raise e => e <> AssertionError
  | NoFuel => False
  end.

(** The same for generators, with [P] holding of every yielded cell. *)
Definition yields {A : Type} (P : Cell -> Prop) (Q : A -> t -> Prop)
  (g : list Cell * result (A * t)) : Prop :=
  Forall P (fst g) /\ returns Q (snd g).

(** The cursor is on a line. *)
Definition in_range (s : t) : Prop := pos s < length (worksheet_lines s).

(** What the readers need from a marker test: it leaves the cursor where it
    is, it needs a line under the cursor, and once true it stays true. *)
Definition marker_spec (m : M bool) (Pre Post : Z -> Prop) : Prop :=
  forall s,
    Pre (index s) ->
    returns (fun (b : bool) s' =>
               worksheet_lines s' = worksheet_lines s /\ pos s' = pos s
               /\ in_range s
               /\ if b then Post (index s') /\ m s' = Ok (true, s')
                  else Pre (index s'))
            (m s).

(** Every yielded compute cell has a non-negative index. *)
Definition index_ok (c : Cell) : Prop :=
  match c with
  | Compute cc => (0 <= ComputeCell.index cc)%Z
  | TextCell _ => True
  end.

Definition option_to_list {A : Type} (o : option A) : list A :=
  match o with
  | Some a => [a]
  | None => []
  end.

(** How an iteration that ends normally ends: at once, or on the line after
    a cell-close marker that is the last line. *)
Definition ends_after_close (s s' : t) : Prop :=
  s' = s
  \/ (pos s' = length (worksheet_lines s)
      /\ exists l, nth_error (worksheet_lines s)
                             (length (worksheet_lines s) - 1) = Some l
                   /\ CELL_BACK l = true).

(** [r'] is what a run with more fuel gives when a run with less gave [r]. *)
Definition extends {A : Type} (r r' : result A) : Prop :=
  r = NoFuel \/ r' = r.

Definition gextends {A : Type} (g g' : list Cell * result A) : Prop :=
  snd g = NoFuel \/ g' = g.

End ParserNotions.

(** ** The notebook *)

Module NotebookSageNB.

(** The entries of [conf] that this module reads.  [conf] is the unpickled
    configuration of a worksheet; it is taken to hold a text under 'owner',
    an integer under 'id_number' and a text under 'name', as the Sage
    notebook writes them. *)
Record conf_t : Type := Conf { owner : pystr; id_number : Z; conf_name : pystr }.

(** What [__init__] stores: the directory, the text of worksheet.html and
    the configuration. *)
Record t : Type := Build { path : pystr; ws : pystr; conf : conf_t }.

Fixpoint uint_chars (d : Decimal.uint) : pystr :=
  match d with
  | Decimal.Nil => []
  | Decimal.D0 d => 48%N :: uint_chars d
  | Decimal.D1 d => 49%N :: uint_chars d
  | Decimal.D2 d => 50%N :: uint_chars d
  | Decimal.D3 d => 51%N :: uint_chars d
  | Decimal.D4 d => 52%N :: uint_chars d
  | Decimal.D5 d => 53%N :: uint_chars d
  | Decimal.D6 d => 54%N :: uint_chars d
  | Decimal.D7 d => 55%N :: uint_chars d
  | Decimal.D8 d => 56%N :: uint_chars d
  | Decimal.D9 d => 57%N :: uint_chars d
  end.

(** An integer in decimal: its digits, after a minus sign when it is
    negative. *)
Definition int_text (z : Z) : pystr :=
  match Z.to_int z with
  | Decimal.Pos d => uint_chars d
  | Decimal.Neg d => 45%N :: uint_chars d
  end.

Definition int_digits (z : Z) : pystr :=
  match Z.to_int z with
  | Decimal.Pos d => uint_chars d
  | Decimal.Neg d => uint_chars d
  end.

(** How [format] writes an integer: in decimal, and with [ValueError] when
    it has more digits than the interpreter converts. *)
Definition str_int (z : Z) : result pystr :=
  if within_limit (int_digits z) then Ok (int_text z) else Raise ValueError.

(** [s < t] on texts: the order of the code points at the first place
    where they differ, a proper prefix coming first. *)
Fixpoint str_lt (s t : pystr) : bool :=
  match s, t with
  | _, [] => false
  | [], _ :: _ => true
  | c :: s', d :: t' =>
      if N.ltb c d then true
      else if N.eqb c d then str_lt s' t' else false
  end.

Definition sort_key (self : t) : pystr * Z :=
  (owner (conf self), id_number (conf self)).

(** [<] on the pairs [sort_key] returns: the first components decide
    unless they are equal. *)
Definition key_lt (a b : pystr * Z) : bool :=
  if PyStr.eqb (fst a) (fst b) then
    if Z.eqb (snd a) (snd b) then false else Z.ltb (snd a) (snd b)
  else str_lt (fst a) (fst b).

Definition __lt__ (lhs rhs : t) : bool := key_lt (sort_key lhs) (sort_key rhs).

(** ['{0}:{1}'.format(owner, id_number)] *)
Definition unique_id (self : t) : result pystr :=
  match str_int (id_number (conf self)) with
  | Ok number => Ok (owner (conf self) ++ py ":" ++ number)
  | Raise e => Raise e
  | NoFuel => NoFuel
  end.

Definition name (self : t) : pystr := conf_name (conf self).

(** [find], over the notebooks that [all_iter] yields, in the order of its
    walk through the directories. *)
Fixpoint find (notebooks : list t) (name_or_unique_id : pystr) : result t :=
  match notebooks with
  | [] => Raise ValueError
  | notebook :: rest =>
      match unique_id notebook with
      | Ok u =>
          if PyStr.eqb u name_or_unique_id then Ok notebook
          else if PyStr.eqb (name notebook) name_or_unique_id then Ok notebook
          else find rest name_or_unique_id
      | Raise e => Raise e
      | NoFuel => NoFuel
      end
  end.

(** [cells]: the cells of the worksheet of this notebook. *)
Definition cells (unescape : pystr -> pystr) (self : t)
  : list Cell * result unit :=
  WorksheetParser.cells unescape (ws self).

(** The characters of a written integer: digits and the minus sign. *)
Definition int_char (c : char) : bool := is_digit c || N.eqb c 45.

(** The number of the notebook is one the interpreter writes. *)
Definition writable (notebook : t) : bool :=
  within_limit (int_digits (id_number (conf notebook))).

(** A notebook answers to the text [x]. *)
Definition answers_to (x : pystr) (notebook : t) : Prop :=
  unique_id notebook = Ok x \/ name notebook = x.

End NotebookSageNB.

(** ** Notions used for the further properties of the parser *)

(** The TextCell made of the narrative lines [text], when they are not
    blank. *)
Definition text_cells (unescape : pystr -> pystr) (text : list pystr)
  : list Cell :=
  match Spec.trimmed text with
  | [] => []
  | _ => [TextCell (unescape (Spec.trimmed text))]
  end.

Definition is_compute (c : Cell) : bool :=
  match c with
  | Compute _ => true
  | TextCell _ => false
  end.

Definition count_compute (ys : list Cell) : nat :=
  length (filter is_compute ys).

(** No TextCell directly follows a TextCell; [after_text] tells whether the
    cell before [ys] was one. *)
Fixpoint alternates (after_text : bool) (ys : list Cell) : bool :=
  match ys with
  | [] => true
  | c :: r =>
      if is_compute c then alternates false r
      else negb after_text && alternates true r
  end.

(** The last cell, if there is one, is a ComputeCell. *)
Definition ends_with_compute (ys : list Cell) : bool :=
  match rev ys with
  | [] => true
  | c :: _ => is_compute c
  end.

(** The texts of a cell are what [unescape] makes of trimmed text, and the
    text of a TextCell is not blank. *)
Definition cell_trimmed (unescape : pystr -> pystr) (c : Cell) : Prop :=
  match c with
  | TextCell a => exists t, t <> [] /\ strip t = t /\ a = unescape t
  | Compute cc =>
      exists ti to,
        strip ti = ti /\ strip to = to
        /\ ComputeCell.input cc = unescape ti
        /\ ComputeCell.output cc = unescape to
  end.

(** What [__iter__] does in one turn of its loop after it has yielded the
    compute cell. *)
Definition after_cell : WorksheetParser.Gen unit :=
  WorksheetParser.gbind (WorksheetParser.call WorksheetParser.is_finished)
    (fun fin =>
       if negb fin
       then WorksheetParser.gbind
              (WorksheetParser.call
                 (WorksheetParser.assert_ WorksheetParser.is_cell_back))
              (fun _ => WorksheetParser.call WorksheetParser.forward)
       else WorksheetParser.gret tt).

(** What a consumer can rely on in the cells of a parse, however it ends. *)
Definition stream_ok (unescape : pystr -> pystr) (ys : list Cell) : Prop :=
  alternates false ys = true /\ Forall (cell_trimmed unescape) ys.

(** ** Notions used for the further properties of the cell views *)

(** Text without the character that starts a tag. *)
Definition tag_free (s : pystr) : bool :=
  forallb (fun c => negb (N.eqb c 60)) s.

(** An output made of text pieces, each followed by a region between an
    opening and a closing tag, then a last piece of text, then possibly an
    opening tag that is never closed and what follows it. *)
Definition regions_output (regions : list (pystr * pystr)) (last : pystr)
  (unclosed : option pystr) : pystr :=
  concat (map (fun ab => fst ab ++ py "<html>" ++ snd ab ++ py "</html>")
              regions)
  ++ last
  ++ match unclosed with
     | Some junk => py "<html>" ++ junk
     | None => []
     end.

(** * Properties *)

(** ** Python text *)

Section Examples.

Example py_newline : py "a\nb" = [97; 10; 98]%N.
Proof. reflexivity. Qed.

Example splitlines_drop :
  splitlines false (py "a\n\nb\nc\n") = [py "a"; py ""; py "b"; py "c"].
Proof. reflexivity. Qed.

Example splitlines_crlf :
  splitlines false [97; 13; 10; 98; 13; 99]%N = [[97]; [98]; [99]]%N.
Proof. reflexivity. Qed.

Example splitlines_crlf_keep :
  splitlines true [97; 13; 10; 98; 13; 99]%N
  = [[97; 13; 10]; [98; 13]; [99]]%N.
Proof. reflexivity. Qed.

Example splitlines_keep :
  splitlines true (py "a\n\nb") = [py "a\n"; py "\n"; py "b"].
Proof. reflexivity. Qed.

Example strip_both_ends : strip (py "  x = 1 \n") = py "x = 1".
Proof. reflexivity. Qed.

Example find_first : find (py "a<html>b<html>") (py "<html>") = 1%Z.
Proof. reflexivity. Qed.

Example find_none : find (py "abc") (py "<html>") = (-1)%Z.
Proof. reflexivity. Qed.

Example remove_all : remove (py "a</html>b</html>") (py "</html>") = py "ab".
Proof. reflexivity. Qed.

Example join_lines : join (py "\n") [py "a"; py "b"] = py "a\nb".
Proof. reflexivity. Qed.

Example CELL_FRONT_digits : CELL_FRONT (py "{{{id=12|") = Some (py "12").
Proof. reflexivity. Qed.

Example CELL_FRONT_trailing : CELL_FRONT (py "{{{id=12| ") = None.
Proof. reflexivity. Qed.

Example int_digits : int (py "042") = Ok 42%Z.
Proof. reflexivity. Qed.

Example int_at_limit :
  int (repeat 49%N 4300) = Ok (digits_value (repeat 49%N 4300))
  /\ int (repeat 49%N 4301) = Raise ValueError
  /\ int (repeat 48%N 4301) = Raise ValueError.
Proof. repeat split; vm_compute; reflexivity. Qed.

End Examples.

Section PyStrFacts.

Lemma list_ind_pairs (A : Type) (P : list A -> Prop) :
  P [] ->
  (forall c r, P r -> (forall d r', r = d :: r' -> P r') -> P (c :: r)) ->
  forall s, P s.
Proof.
  intros H0 HS s.
  assert (H : P s /\ (forall d r', s = d :: r' -> P r')).
  { induction s as [|c r [IH1 IH2]].
    - split; [exact H0 | discriminate].
    - split; [apply HS; assumption|].
      intros d r' E. injection E as _ <-. exact IH1. }
  exact (proj1 H).
Qed.

Lemma concat_splitlines (s : pystr) : concat (splitlines true s) = s.
Proof.
  induction s as [|c r IH IH'] using list_ind_pairs; [reflexivity|].
  cbn [splitlines]. destruct (is_linebreak c).
  - destruct r as [|d r']; [reflexivity|].
    destruct (N.eqb c 13 && N.eqb d 10).
    + cbn. now rewrite (IH' d r' eq_refl).
    + cbn [concat app]. now rewrite IH.
  - destruct (splitlines true r) as [|l ls] eqn:E.
    + cbn in IH. subst r. reflexivity.
    + cbn [concat] in *. rewrite <- IH. reflexivity.
Qed.

Lemma splitlines_head (c : char) (r : pystr) :
  exists l ls, splitlines true (c :: r) = (c :: l) :: ls.
Proof.
  cbn [splitlines]. destruct (is_linebreak c).
  - destruct r as [|d r']; [now eexists; eexists|].
    destruct (N.eqb c 13 && N.eqb d 10); now eexists; eexists.
  - destruct (splitlines true r); now eexists; eexists.
Qed.

Lemma lstrip_snoc (a : pystr) (c : char) :
  is_space c = false -> lstrip (a ++ [c]) = lstrip a ++ [c].
Proof.
  intros Hc. induction a as [|x a IH]; cbn [lstrip app].
  - now rewrite Hc.
  - destruct (is_space x); [exact IH | reflexivity].
Qed.

Lemma rstrip_cons (c : char) (r : pystr) :
  is_space c = false -> rstrip (c :: r) = c :: rstrip r.
Proof.
  intros Hc. unfold rstrip. cbn [rev].
  rewrite lstrip_snoc by assumption. rewrite rev_app_distr. reflexivity.
Qed.

Lemma lstrip_spaces (t s : pystr) :
  forallb is_space t = true -> lstrip (t ++ s) = lstrip s.
Proof.
  induction t as [|x t IH]; cbn [forallb app lstrip]; [reflexivity|].
  intros H. apply andb_prop in H as [Hx Ht]. rewrite Hx. now apply IH.
Qed.

Lemma forallb_rev (A : Type) (f : A -> bool) (l : list A) :
  forallb f (rev l) = forallb f l.
Proof.
  induction l as [|x l IH]; [reflexivity|].
  cbn [rev forallb]. rewrite forallb_app, IH. cbn. 
  rewrite andb_true_r. apply andb_comm.
Qed.

Lemma rstrip_spaces (a t : pystr) :
  forallb is_space t = true -> rstrip (a ++ t) = rstrip a.
Proof.
  intros Ht. unfold rstrip. rewrite rev_app_distr.
  rewrite lstrip_spaces; [reflexivity|]. now rewrite forallb_rev.
Qed.

Lemma lstrip_suffix (s : pystr) : exists w, s = w ++ lstrip s.
Proof.
  induction s as [|c r [w IH]]; [now exists []|].
  cbn [lstrip]. destruct (is_space c).
  - exists (c :: w). cbn. now rewrite <- IH.
  - now exists [].
Qed.

Lemma rstrip_prefix (s : pystr) : exists w, s = rstrip s ++ w.
Proof.
  unfold rstrip. destruct (lstrip_suffix (rev s)) as [w Hw].
  exists (rev w). rewrite <- rev_app_distr, <- Hw. now rewrite rev_involutive.
Qed.

Lemma lstrip_idem (s : pystr) : lstrip (lstrip s) = lstrip s.
Proof.
  induction s as [|c r IH]; [reflexivity|].
  cbn [lstrip]. destruct (is_space c) eqn:E; [exact IH|].
  cbn [lstrip]. now rewrite E.
Qed.

Lemma rstrip_idem (s : pystr) : rstrip (rstrip s) = rstrip s.
Proof.
  unfold rstrip. now rewrite rev_involutive, lstrip_idem.
Qed.

Lemma strip_percent (r : pystr) :
  strip (37%N :: r) = 37%N :: rstrip r.
Proof.
  unfold strip. cbn [lstrip].
  change (is_space 37%N) with false. cbn iota. now apply rstrip_cons.
Qed.

Lemma startswith_percent (l : pystr) :
  startswith l (py "%") = true -> exists r, l = 37%N :: r.
Proof.
  destruct l as [|c r]; cbn; [discriminate|].
  rewrite andb_true_r. intros H. apply N.eqb_eq in H. subst. now exists r.
Qed.

End PyStrFacts.

(** ** [ComputeCell.ipython_input] *)

Section DirectiveRewrite.

Import ComputeCell.

Lemma rest_loop_concat (lines : list pystr) (res : pystr) :
  rest_loop lines res = res ++ concat lines.
Proof.
  revert res. induction lines as [|l ls IH]; intros res; cbn [rest_loop concat].
  - now rewrite app_nil_r.
  - rewrite IH. now rewrite <- app_assoc.
Qed.

Lemma directive_loop_rewrite (lines : list pystr) (res : pystr) :
  (let (res', lines') := directive_loop lines res in rest_loop lines' res')
  = res ++ Spec.directive_rewrite lines.
Proof.
  revert res. induction lines as [|l ls IH]; intros res.
  - cbn. now rewrite app_nil_r.
  - cbn [directive_loop Spec.directive_rewrite].
    destruct (startswith l (py "%")) eqn:E; cbn [negb].
    + destruct (is_in (strip l) noop_directives); [apply IH|].
      rewrite IH. apply startswith_percent in E as [r ->].
      rewrite strip_percent. cbn [tl]. rewrite <- !app_assoc. reflexivity.
    + rewrite rest_loop_concat. now rewrite <- app_assoc.
Qed.

Lemma ipython_input_rewrite (self : t) :
  ipython_input self = Spec.directive_rewrite (splitlines true (input self)).
Proof.
  unfold ipython_input.
  exact (directive_loop_rewrite (splitlines true (input self)) []).
Qed.

End DirectiveRewrite.

(** C3: [ipython_input] drops the legacy directives among the leading
    percent lines, turns every other leading percent line into a
    double-percent line ended by a newline, stops at the first line that does
    not begin with a percent sign and appends the remaining lines verbatim
    (the lines are those of [splitlines(True)], whose concatenation is the
    input); and it maps "%auto\n%time\nx=1" to "%%time\nx=1". *)
Theorem C3_ipython_input_rewrites_directives :
  (forall self : ComputeCell.t,
      ComputeCell.ipython_input self
      = Spec.directive_rewrite (splitlines true (ComputeCell.input self))
      /\ concat (splitlines true (ComputeCell.input self))
         = ComputeCell.input self)
  /\ (forall (index : Z) (output : pystr),
      ComputeCell.ipython_input
        (ComputeCell.Build index (py "%auto\n%time\nx=1") output)
      = py "%%time\nx=1").
Proof.
  split.
  - intros self. split.
    + apply ipython_input_rewrite.
    + apply concat_splitlines.
  - intros index output. reflexivity.
Qed.

(** C9: [ipython_input] returns the input unchanged when the first line of
    the input does not begin with a percent sign, and on the empty input. *)
Theorem C9_ipython_input_identity (self : ComputeCell.t) :
  match splitlines true (ComputeCell.input self) with
  | [] => True
  | first :: _ => startswith first (py "%") = false
  end ->
  ComputeCell.ipython_input self = ComputeCell.input self.
Proof.
  intros H. rewrite ipython_input_rewrite.
  rewrite <- (concat_splitlines (ComputeCell.input self)) at 2.
  destruct (splitlines true (ComputeCell.input self)) as [|l ls];
    [reflexivity|].
  cbn [Spec.directive_rewrite concat]. now rewrite H.
Qed.

Lemma C9_ipython_input_identity_witness :
  ComputeCell.ipython_input (ComputeCell.Build 0 (py "x=1\n%time\n") (py "1"))
  = py "x=1\n%time\n".
Proof.
  apply (C9_ipython_input_identity
           (ComputeCell.Build 0 (py "x=1\n%time\n") (py "1"))).
  reflexivity.
Defined.

Section RewriteTwice.

Import ComputeCell.

Lemma linebreak_is_space (c : char) :
  is_linebreak c = true -> is_space c = true.
Proof.
  unfold is_linebreak, char_in. cbn [existsb].
  rewrite !orb_true_iff, !N.eqb_eq.
  intros H. repeat (destruct H as [H|H]; [subst; reflexivity|]).
  discriminate.
Qed.

Lemma splitlines_shape (s : pystr) : Forall line_shape (splitlines true s).
Proof.
  induction s as [|c r IH IH'] using list_ind_pairs; [constructor|].
  cbn [splitlines]. destruct (is_linebreak c) eqn:Ec.
  - pose proof (linebreak_is_space c Ec) as Hc.
    destruct r as [|d r'].
    + constructor; [|constructor]. split; [discriminate|].
      exists [], [c]. cbn. now rewrite Hc.
    + destruct (N.eqb c 13 && N.eqb d 10) eqn:E.
      * constructor; [|exact (IH' d r' eq_refl)]. split; [discriminate|].
        apply andb_prop in E as [_ Ed]. apply N.eqb_eq in Ed. subst d.
        exists [], [c; 10%N]. cbn. now rewrite Hc.
      * constructor; [|exact IH]. split; [discriminate|].
        exists [], [c]. cbn. now rewrite Hc.
  - destruct (splitlines true r) as [|l ls].
    + constructor; [|constructor]. split; [discriminate|].
      exists [c], []. cbn. now rewrite Ec.
    + inversion IH as [|? ? (_ & body & term & -> & Hb & Ht) Hls]; subst.
      constructor; [|exact Hls]. split; [discriminate|].
      exists (c :: body), term. unfold no_linebreak in *.
      cbn [app forallb]. now rewrite Ec, Hb.
Qed.

Lemma no_linebreak_app (a b : pystr) :
  no_linebreak (a ++ b) = no_linebreak a && no_linebreak b.
Proof. apply forallb_app. Qed.

Lemma splitlines_newline_ended (p s : pystr) :
  no_linebreak p = true ->
  splitlines true (newline_ended p ++ s) = newline_ended p :: splitlines true s.
Proof.
  unfold newline_ended. induction p as [|c p IH]; intros Hp.
  - cbn [app py splitlines]. change (is_linebreak 10%N) with true. cbn iota.
    destruct s; reflexivity.
  - cbn in Hp. apply andb_prop in Hp as [Hc Hp].
    apply negb_true_iff in Hc.
    cbn [app splitlines]. rewrite Hc. cbn [app] in IH. now rewrite IH.
Qed.

Lemma splitlines_newline_lines (ps : list pystr) (s : pystr) :
  Forall (fun p => no_linebreak p = true) ps ->
  splitlines true (concat (map newline_ended ps) ++ s)
  = map newline_ended ps ++ splitlines true s.
Proof.
  induction 1 as [|p ps Hp _ IH]; [reflexivity|].
  cbn [map concat app]. rewrite <- app_assoc.
  rewrite splitlines_newline_ended by assumption. now rewrite IH.
Qed.

Lemma rewrite_unmarked (s : pystr) :
  startswith s (py "%") = false ->
  Spec.directive_rewrite (splitlines true s) = s.
Proof.
  intros H. rewrite <- (concat_splitlines s) at 2.
  destruct s as [|c r]; [reflexivity|].
  destruct (splitlines_head c r) as (l & ls & ->).
  cbn [Spec.directive_rewrite concat].
  cbn in H |- *. now rewrite H.
Qed.

Lemma block_unmarked (s : pystr) :
  startswith s (py "%") = false -> Spec.directive_block s = [].
Proof.
  intros H. unfold Spec.directive_block.
  destruct s as [|c r]; [reflexivity|].
  destruct (splitlines_head c r) as (l & ls & ->).
  cbn in H |- *. rewrite andb_true_r in H. now rewrite H.
Qed.

Lemma startswith_app (p q x : pystr) :
  startswith p q = true -> startswith (p ++ x) q = true.
Proof.
  revert p. induction q as [|d q IH]; intros p H; [reflexivity|].
  destruct p as [|c p]; [discriminate|].
  cbn in H |- *. apply andb_prop in H as [-> H]. now apply IH.
Qed.

Lemma block_lines (ps : list pystr) (rest : pystr) :
  Forall (fun p => no_linebreak p = true) ps ->
  Forall (fun p => startswith p (py "%%") = true) ps ->
  startswith rest (py "%") = false ->
  Spec.directive_block (concat (map newline_ended ps) ++ rest)
  = map newline_ended ps.
Proof.
  intros Hnb Hpp Hrest. unfold Spec.directive_block.
  rewrite splitlines_newline_lines by assumption.
  induction Hpp as [|p ps Hp _ IH].
  - exact (block_unmarked rest Hrest).
  - inversion Hnb; subst. cbn [map app Spec.take_while].
    unfold newline_ended at 1. rewrite (startswith_app _ _ _ Hp).
    f_equal. now apply IH.
Qed.

Lemma rewrite_shape (lines : list pystr) :
  Forall line_shape lines ->
  exists bodies rest,
    Spec.directive_rewrite lines
    = concat (map newline_ended (map (app (py "%%")) bodies)) ++ rest
    /\ Forall magic_body bodies
    /\ startswith rest (py "%") = false.
Proof.
  induction 1 as [|l ls (Hne & body & term & Hl & Hb & Ht) _ IH].
  - exists [], []. repeat split. constructor.
  - destruct IH as (bodies & rest & IH & Hbs & Hrest).
    cbn [Spec.directive_rewrite].
    destruct (startswith l (py "%")) eqn:E.
    + destruct (is_in (strip l) noop_directives) eqn:Enoop.
      * exists bodies, rest. auto.
      * apply startswith_percent in E as [r ->].
        exists (rstrip r :: bodies), rest.
        rewrite strip_percent. cbn [tl map concat]. rewrite IH.
        unfold newline_ended at 2. rewrite <- !app_assoc.
        split; [reflexivity|]. split; [|exact Hrest].
        constructor; [|exact Hbs]. split.
        -- assert (Hr : 37%N :: rstrip r = rstrip body).
           { rewrite <- rstrip_cons by reflexivity.
             rewrite Hl. now apply rstrip_spaces. }
           destruct (rstrip_prefix body) as [w Hw].
           rewrite Hw, no_linebreak_app, <- Hr in Hb.
           apply andb_prop in Hb as [Hb _].
           unfold no_linebreak in Hb. cbn [forallb] in Hb.
           now apply andb_prop in Hb as [_ Hb].
        -- rewrite rstrip_cons by reflexivity. now rewrite rstrip_idem.
    + exists [], (l ++ concat ls). repeat split; [constructor|].
      destruct l as [|c l]; [congruence|]. exact E.
Qed.

Lemma rewrite_magic_lines (bodies : list pystr) (lines : list pystr) :
  Forall magic_body bodies ->
  Spec.directive_rewrite
    (map newline_ended (map (app (py "%%")) bodies) ++ lines)
  = concat (map newline_ended (map (app (py "%%%")) bodies))
    ++ Spec.directive_rewrite lines.
Proof.
  induction 1 as [|b bodies [Hnb Hb] _ IH]; [reflexivity|].
  cbn [map app concat Spec.directive_rewrite].
  change (py "%%" ++ b) with (37 :: 37 :: b)%N.
  change (py "%%%" ++ b) with (37 :: 37 :: 37 :: b)%N.
  assert (Hs : strip (newline_ended (37 :: 37 :: b)%N) = (37 :: 37 :: b)%N).
  { unfold newline_ended. cbn [app]. rewrite strip_percent.
    change (37 :: b ++ py "\n")%N with ((37%N :: b) ++ [10%N]).
    rewrite rstrip_spaces by reflexivity. now rewrite Hb. }
  rewrite Hs, IH.
  change (startswith (newline_ended (37 :: 37 :: b)%N) (py "%")) with true.
  change (is_in (37 :: 37 :: b)%N noop_directives) with false.
  cbv iota. unfold newline_ended. cbn [tl].
  change (py "%%") with [37; 37]%N. cbn [app].
  rewrite <- !app_assoc. reflexivity.
Qed.

Lemma magic_body_no_linebreak (bodies : list pystr) (p : pystr) :
  no_linebreak p = true ->
  Forall magic_body bodies ->
  Forall (fun q => no_linebreak q = true) (map (app p) bodies).
Proof.
  intros Hp. induction 1 as [|b bodies [Hb _] _ IH]; constructor; auto.
  rewrite no_linebreak_app. now rewrite Hp, Hb.
Qed.

Lemma magic_body_startswith (bodies : list pystr) (p q : pystr) :
  startswith p q = true ->
  Forall (fun l => startswith l q = true) (map (app p) bodies).
Proof.
  intros Hp. induction bodies; constructor; auto using startswith_app.
Qed.

End RewriteTwice.

(** C6, as stated, fails: rewriting "%time" gives "%%time\n", and rewriting
    that again gives "%%%time\n", so the leading blocks differ. *)
Lemma C6_rewrite_not_idempotent :
  let c := ComputeCell.Build 0 (py "%time") (py "") in
  let once := ComputeCell.ipython_input c in
  let twice := ComputeCell.ipython_input (with_input c once) in
  once = py "%%time\n" /\ twice = py "%%%time\n"
  /\ Spec.directive_block twice <> Spec.directive_block once.
Proof.
  cbv zeta. split; [reflexivity|]. split; [reflexivity|].
  vm_compute. discriminate.
Qed.

(** C6, amended: re-applying the rewrite to an already rewritten input keeps
    the leading double-percent block line by line except that every line of
    it gains one more percent sign; what follows the block is unchanged. *)
Theorem C6_rewrite_twice_adds_percent (self : ComputeCell.t) :
  let once := ComputeCell.ipython_input self in
  let twice := ComputeCell.ipython_input (with_input self once) in
  Spec.directive_block twice = map (cons 37%N) (Spec.directive_block once)
  /\ exists rest,
       once = concat (Spec.directive_block once) ++ rest
       /\ twice = concat (Spec.directive_block twice) ++ rest.
Proof.
  cbv zeta. rewrite !ipython_input_rewrite. cbn [with_input ComputeCell.input].
  destruct (rewrite_shape (splitlines_shape (ComputeCell.input self)))
    as (bodies & rest & -> & Hbs & Hrest).
  assert (Hnb2 := magic_body_no_linebreak (py "%%") eq_refl Hbs).
  assert (Hnb3 := magic_body_no_linebreak (py "%%%") eq_refl Hbs).
  rewrite (splitlines_newline_lines _ Hnb2).
  rewrite (rewrite_magic_lines _ Hbs), (rewrite_unmarked _ Hrest).
  rewrite (block_lines _ Hnb2
             (magic_body_startswith bodies (py "%%") (py "%%") eq_refl) Hrest).
  rewrite (block_lines _ Hnb3
             (magic_body_startswith bodies (py "%%%") (py "%%") eq_refl) Hrest).
  split.
  - rewrite !map_map. apply map_ext. reflexivity.
  - exists rest. split; reflexivity.
Qed.

(** ** [ComputeCell.plain_text_output] *)

Section PlainTextOutput.

Import ComputeCell.

Lemma html_loop_no_open (s t : pystr) :
  find s (py "<html>") = (-1)%Z -> html_loop s t = t ++ s.
Proof.
  intros H. funelim (html_loop s t); try reflexivity.
  - now rewrite app_nil_r.
  - exfalso.
    match goal with
    | Hf : find ?s ?p = (-1)%Z, e : (find ?s ?p =? -1)%Z = false |- _ =>
        pose proof e as e'; rewrite Hf in e'; discriminate
    end.
  - exfalso.
    match goal with
    | Hf : find ?s ?p = (-1)%Z, e : (find ?s ?p =? -1)%Z = false |- _ =>
        pose proof e as e'; rewrite Hf in e'; discriminate
    end.
Qed.

Lemma find_cons_none (c : char) (r sub : pystr) :
  find (c :: r) sub = (-1)%Z ->
  startswith (c :: r) sub = false /\ find r sub = (-1)%Z.
Proof.
  cbn [find]. destruct (startswith (c :: r) sub); [discriminate|].
  pose proof (find_lower r sub).
  destruct (Z.ltb_spec (find r sub) 0); intros; split; auto; lia.
Qed.

Lemma remove_no_occurrence (s sub : pystr) :
  find s sub = (-1)%Z -> remove s sub = s.
Proof.
  unfold remove. induction s as [|c r IH]; [reflexivity|].
  intros H. apply find_cons_none in H as [Hs Hr].
  cbn [remove_from]. rewrite Hs. now rewrite IH.
Qed.

End PlainTextOutput.

(** C4: on the output "x</html>y<html>z" [plain_text_output] returns "xyy":
    the closing tag is searched from the start of the remaining string and
    not from the opening tag, and the text between the stray closing tag
    and the opening tag is emitted twice.  The removal the specification
    describes gives "xy", and "xyy" cannot be obtained from the output by
    discarding characters.  On "a<html>b</html>c" the result is "ac". *)
Theorem C4_plain_text_output_repeats_text :
  let c := ComputeCell.Build 0 (py "") (py "x</html>y<html>z") in
  ComputeCell.plain_text_output c = py "xyy"
  /\ Spec.visible_output (ComputeCell.output c) = py "xy"
  /\ Spec.is_subsequence (ComputeCell.plain_text_output c)
                         (ComputeCell.output c) = false
  /\ ComputeCell.plain_text_output
       (ComputeCell.Build 0 (py "") (py "a<html>b</html>c")) = py "ac".
Proof. cbv zeta. repeat split; vm_compute; reflexivity. Qed.

(** C5, as stated, fails: removing the region inside "<ht<html></html>ml>"
    leaves "<html>", which a second application removes. *)
Lemma C5_plain_text_output_not_idempotent :
  let c := ComputeCell.Build 0 (py "") (py "<ht<html></html>ml>") in
  let once := ComputeCell.plain_text_output c in
  let twice := ComputeCell.plain_text_output (with_output c once) in
  once = py "<html>" /\ twice = py "" /\ twice <> once.
Proof.
  cbv zeta. split; [vm_compute; reflexivity|].
  split; [vm_compute; reflexivity|]. vm_compute. discriminate.
Qed.

(** C5, amended: applying [plain_text_output] twice yields the same result
    as applying it once whenever the result of the first application
    contains neither the opening nor the closing tag. *)
Theorem C5_plain_text_output_idempotent_without_tags (self : ComputeCell.t) :
  let once := ComputeCell.plain_text_output self in
  find once (py "<html>") = (-1)%Z ->
  find once (py "</html>") = (-1)%Z ->
  ComputeCell.plain_text_output (with_output self once) = once.
Proof.
  cbv zeta. intros Hopen Hclose.
  unfold ComputeCell.plain_text_output at 1.
  cbn [with_output ComputeCell.output].
  rewrite (html_loop_no_open _ [] Hopen). cbn [app].
  now apply remove_no_occurrence.
Qed.

Lemma C5_plain_text_output_idempotent_without_tags_witness :
  let c := ComputeCell.Build 0 (py "") (py "a<html>b</html>c") in
  ComputeCell.plain_text_output
    (with_output c (ComputeCell.plain_text_output c))
  = ComputeCell.plain_text_output c.
Proof.
  cbv zeta.
  apply (C5_plain_text_output_idempotent_without_tags
           (ComputeCell.Build 0 (py "") (py "a<html>b</html>c")));
    vm_compute; reflexivity.
Defined.

(** ** The line classifier *)

Section Markers.

Lemma strip_prefix_app (p r : pystr) : strip_prefix p (p ++ r) = Some r.
Proof.
  induction p as [|d p IH]; [reflexivity|].
  cbn [app strip_prefix]. now rewrite N.eqb_refl.
Qed.

Lemma strip_prefix_some (p s r : pystr) :
  strip_prefix p s = Some r -> s = p ++ r.
Proof.
  revert s. induction p as [|d p IH]; intros s H.
  - cbn in H. now injection H as ->.
  - destruct s as [|c s]; [discriminate|]. cbn [strip_prefix] in H.
    destruct (N.eqb_spec c d); [|discriminate].
    subst. cbn [app]. f_equal. now apply IH.
Qed.

Lemma span_digits_some (r ds t : pystr) :
  span_digits r = (ds, t) ->
  r = ds ++ t /\ forallb is_digit ds = true.
Proof.
  revert ds t. induction r as [|c r IH]; intros ds t H; cbn in H.
  - injection H as <- <-. now split.
  - destruct (is_digit c) eqn:E.
    + destruct (span_digits r) as [ds' t'].
      injection H as <- <-. destruct (IH _ _ eq_refl) as [-> Hd].
      split; [reflexivity|]. cbn. now rewrite E.
    + injection H as <- <-. now split.
Qed.

Lemma span_digits_app (ds : pystr) (c : char) (t : pystr) :
  forallb is_digit ds = true -> is_digit c = false ->
  span_digits (ds ++ c :: t) = (ds, c :: t).
Proof.
  intros Hd Hc. induction ds as [|d ds IH]; cbn [app span_digits].
  - now rewrite Hc.
  - cbn in Hd. apply andb_prop in Hd as [-> Hd]. now rewrite IH.
Qed.

Lemma CELL_FRONT_matches (ds : pystr) :
  forallb is_digit ds = true ->
  CELL_FRONT (py "{{{id=" ++ ds ++ py "|") = Some ds.
Proof.
  intros Hd. unfold CELL_FRONT. rewrite strip_prefix_app.
  change (py "|") with [124%N]. now rewrite span_digits_app.
Qed.

Lemma no_linebreak_snoc_newline (a : pystr) :
  no_linebreak (a ++ [10%N]) = false.
Proof. rewrite no_linebreak_app. cbn. apply andb_false_r. Qed.

Lemma CELL_FRONT_some (line ds : pystr) :
  no_linebreak line = true ->
  CELL_FRONT line = Some ds ->
  forallb is_digit ds = true /\ line = py "{{{id=" ++ ds ++ py "|".
Proof.
  intros Hnb. unfold CELL_FRONT.
  destruct (strip_prefix (py "{{{id=") line) as [r|] eqn:Ep; [|discriminate].
  apply strip_prefix_some in Ep. subst line.
  destruct (span_digits r) as [ds' t] eqn:Es.
  apply span_digits_some in Es as [-> Hd].
  destruct t as [|c t']; [discriminate|].
  destruct (N.eqb_spec c 124); [subst c | discriminate]. cbn [andb].
  destruct t' as [|x [|y t'']]; cbn [at_dollar].
  - intros H. injection H as <-. now split.
  - destruct (N.eqb_spec x 10); [subst x | discriminate]. exfalso.
    change (py "{{{id=" ++ ds' ++ [124; 10])%N
      with (py "{{{id=" ++ ds' ++ [124%N] ++ [10%N]) in Hnb.
    rewrite !app_assoc in Hnb. rewrite no_linebreak_snoc_newline in Hnb.
    discriminate.
  - discriminate.
Qed.

Lemma splitlines_no_linebreak (s : pystr) :
  Forall (fun l => no_linebreak l = true) (splitlines false s).
Proof.
  induction s as [|c r IH IH'] using list_ind_pairs; [constructor|].
  cbn [splitlines]. destruct (is_linebreak c) eqn:Ec.
  - destruct r as [|d r']; [now repeat constructor|].
    destruct (N.eqb c 13 && N.eqb d 10).
    + constructor; [reflexivity | exact (IH' d r' eq_refl)].
    + constructor; [reflexivity | exact IH].
  - destruct (splitlines false r) as [|l ls].
    + repeat constructor. cbn. now rewrite Ec.
    + inversion IH; subst. constructor; [|assumption].
      unfold no_linebreak in *. cbn [forallb]. now rewrite Ec.
Qed.

Lemma nth_error_Forall (A : Type) (P : A -> Prop) (l : list A) (n : nat)
  (x : A) :
  Forall P l -> nth_error l n = Some x -> P x.
Proof.
  intros H E. apply nth_error_In in E.
  rewrite Forall_forall in H. now apply H.
Qed.

End Markers.

Section Classifier.

Import WorksheetParser.

Lemma int_ok (ds : pystr) :
  ds <> [] -> within_limit ds = true -> int ds = Ok (digits_value ds).
Proof.
  intros Hne Hlim. unfold int. rewrite Hlim. now destruct ds.
Qed.

Lemma int_cases (ds : pystr) :
  (int ds = Ok (digits_value ds) /\ ds <> [] /\ within_limit ds = true)
  \/ (int ds = Raise ValueError /\ (ds = [] \/ within_limit ds = false)).
Proof.
  destruct ds as [|d ds]; [right; split; [reflexivity | now left]|].
  unfold int. destruct (within_limit (d :: ds)).
  - left. repeat split. discriminate.
  - right. split; [reflexivity | now right].
Qed.

Lemma is_cell_front_unfold (self : t) (l : pystr) :
  nth_error (worksheet_lines self) (pos self) = Some l ->
  is_cell_front self
  = match CELL_FRONT l with
    | Some ds =>
        match int ds with
        | Ok v => Ok (true, Build (worksheet_lines self) (pos self) v)
        | Raise e => Raise e
        | NoFuel => NoFuel
        end
    | None => Ok (false, self)
    end.
Proof.
  intros H. unfold is_cell_front, bind, line. rewrite H.
  destruct (CELL_FRONT l) as [ds|]; [|reflexivity].
  unfold lift. now destruct (int ds).
Qed.

Lemma shape_digits (ds ds' : pystr) :
  py "{{{id=" ++ ds ++ py "|" = py "{{{id=" ++ ds' ++ py "|" -> ds = ds'.
Proof.
  intros H. apply app_inv_head in H. now apply app_inv_tail in H.
Qed.

Lemma not_shape_without_digits (ds : pystr) :
  ~ Spec.cell_open_shape (py "{{{id=|") ds.
Proof.
  intros (Hne & _ & H). apply Hne.
  change (py "{{{id=|") with (py "{{{id=" ++ [] ++ py "|") in H.
  apply app_inv_head in H. apply app_inv_tail in H. now subst.
Qed.

End Classifier.

(** C2, as stated, fails: the line "{{{id=|" has no digit, so it is not of
    the cell-open shape, yet it is not classified as ordinary content:
    [CELL_FRONT] accepts an empty digit run and [int] raises on it. *)
Lemma C2_is_cell_front_without_digits :
  let self := WorksheetParser.__init__ (py "{{{id=|") in
  WorksheetParser.line self = Ok (py "{{{id=|", self)
  /\ (forall ds, ~ Spec.cell_open_shape (py "{{{id=|") ds)
  /\ WorksheetParser.is_cell_front self = Raise ValueError
  /\ WorksheetParser.is_cell_front self <> Ok (false, self).
Proof.
  cbv zeta. split; [reflexivity|]. split; [apply not_shape_without_digits|].
  split; [reflexivity | discriminate].
Qed.

(** C2, amended: on a line [l] of the worksheet, [is_cell_front] returns
    true exactly when [l] is the literal prefix, one or more decimal digits
    (at most as many as the interpreter converts, 4300 in its default
    setting) and a vertical bar, and nothing else, and it then stores the
    decimal value of the digit run as the index; it raises [ValueError]
    exactly when [l] is the prefix directly followed by the bar (no digit)
    or has that shape with a longer digit run; and on every other line it
    returns false and leaves the parser unchanged. *)
Theorem C2_is_cell_front_classifies
  (ws : pystr) (p : nat) (i : Z) (l : pystr) :
  nth_error (splitlines false ws) p = Some l ->
  let self := WorksheetParser.Build (splitlines false ws) p i in
  (forall self',
      WorksheetParser.is_cell_front self = Ok (true, self')
      <-> exists ds,
            Spec.cell_open_shape l ds /\ within_limit ds = true
            /\ self' = WorksheetParser.Build (splitlines false ws) p
                         (digits_value ds))
  /\ (WorksheetParser.is_cell_front self = Raise ValueError
      <-> l = py "{{{id=|"
          \/ exists ds, Spec.cell_open_shape l ds /\ within_limit ds = false)
  /\ (WorksheetParser.is_cell_front self = Ok (false, self)
      <-> l <> py "{{{id=|" /\ forall ds, ~ Spec.cell_open_shape l ds).
Proof.
  intros Hl self.
  assert (Hnb : no_linebreak l = true)
    by exact (nth_error_Forall _ (splitlines_no_linebreak ws) Hl).
  rewrite (is_cell_front_unfold self Hl). subst self.
  cbn [WorksheetParser.worksheet_lines WorksheetParser.pos].
  destruct (CELL_FRONT l) as [ds|] eqn:E.
  - destruct (CELL_FRONT_some _ Hnb E) as [Hd ->].
    destruct (int_cases ds) as [(Ei & Hne & Hlim)|(Ei & Hbad)]; rewrite Ei.
    + split; [|split].
      * intros self'. split.
        -- intros H. injection H as <-. exists ds.
           repeat split; auto.
        -- intros (ds' & (_ & _ & Hs) & _ & ->).
           now rewrite (shape_digits _ _ Hs).
      * split; [discriminate|].
        intros [H|(ds' & (_ & _ & Hs) & Hlim')].
        -- change (py "{{{id=|") with (py "{{{id=" ++ [] ++ py "|") in H.
           now apply shape_digits in H.
        -- rewrite <- (shape_digits _ _ Hs) in Hlim'. congruence.
      * split; [discriminate|]. intros [_ H]. exfalso.
        apply (H ds). repeat split; auto.
    + split; [|split].
      * intros self'. split; [discriminate|].
        intros (ds' & (Hne' & _ & Hs) & Hlim' & _).
        apply shape_digits in Hs. subst ds'.
        destruct Hbad; congruence.
      * split; [|reflexivity]. intros _.
        destruct ds as [|d ds]; [now left|]. right.
        exists (d :: ds). split.
        -- repeat split; [discriminate | exact Hd].
        -- destruct Hbad; [discriminate | assumption].
      * split; [discriminate|]. intros [Hneq H]. exfalso.
        destruct ds as [|d ds]; [now apply Hneq|].
        apply (H (d :: ds)). repeat split; [discriminate | exact Hd].
  - split; [|split].
    + intros self'. split; [discriminate|].
      intros (ds & (_ & Hd & ->) & _).
      rewrite (CELL_FRONT_matches _ Hd) in E. discriminate.
    + split; [discriminate|].
      intros [->|(ds & (_ & Hd & ->) & _)]; [discriminate|].
      rewrite (CELL_FRONT_matches _ Hd) in E. discriminate.
    + split; [|reflexivity]. intros _. split.
      * intros ->. discriminate.
      * intros ds (_ & Hd & ->).
        rewrite (CELL_FRONT_matches _ Hd) in E. discriminate.
Qed.

Lemma C2_is_cell_front_classifies_witness :
  let self := WorksheetParser.Build
                (splitlines false (py "text\n{{{id=42|\nx\n///\n}}}")) 1 (-1) in
  WorksheetParser.is_cell_front self
  = Ok (true, WorksheetParser.Build (WorksheetParser.worksheet_lines self) 1 42).
Proof.
  cbv zeta.
  apply (proj1 (C2_is_cell_front_classifies
                  (py "text\n{{{id=42|\nx\n///\n}}}") 1 (-1) eq_refl)).
  exists (py "42"). split; [|split; reflexivity].
  repeat split. discriminate.
Defined.

(** ** A program logic for the parser's methods *)

Section Logic.

Import WorksheetParser.

Lemma returns_bind (A B : Type) (Q1 : A -> t -> Prop) (Q2 : B -> t -> Prop)
  (m : M A) (k : A -> M B) (s : t) :
  returns Q1 (m s) ->
  (forall a s1, Q1 a s1 -> returns Q2 (k a s1)) ->
  returns Q2 (bind m k s).
Proof.
  unfold bind. destruct (m s) as [[a s1]| |]; cbn; auto.
Qed.

Lemma returns_weaken (A : Type) (Q Q' : A -> t -> Prop)
  (r : result (A * t)) :
  returns Q r -> (forall a s, Q a s -> Q' a s) -> returns Q' r.
Proof. destruct r as [[a s]| |]; cbn; auto. Qed.

Lemma yields_gbind (A B : Type) (P : Cell -> Prop)
  (Q1 : A -> t -> Prop) (Q2 : B -> t -> Prop)
  (m : Gen A) (k : A -> Gen B) (s : t) :
  yields P Q1 (m s) ->
  (forall a s1, Q1 a s1 -> yields P Q2 (k a s1)) ->
  yields P Q2 (gbind m k s).
Proof.
  unfold gbind, yields. destruct (m s) as [ys [[a s1]| |]]; cbn.
  - intros [Hys HQ] Hk. specialize (Hk a s1 HQ).
    destruct (k a s1) as [zs r]. cbn in *. destruct Hk as [Hzs Hr].
    split; [|exact Hr]. apply Forall_app. now split.
  - intros [Hys He] _. now split.
  - intros [_ []].
Qed.

Lemma yields_call (A : Type) (P : Cell -> Prop) (Q : A -> t -> Prop)
  (m : M A) (s : t) :
  returns Q (m s) -> yields P Q (call m s).
Proof. intros H. split; [constructor | exact H]. Qed.

Lemma digits_value_from (ds : pystr) (a : Z) :
  (0 <= a)%Z ->
  (0 <= fold_left (fun (a : Z) (c : N) => (10 * a + Z.of_N (c - 48))%Z) ds a)%Z.
Proof.
  revert a. induction ds as [|d ds IH]; intros a Ha; cbn [fold_left];
    [exact Ha|].
  apply IH. lia.
Qed.

Lemma digits_value_nonneg (ds : pystr) : (0 <= digits_value ds)%Z.
Proof. apply digits_value_from. lia. Qed.

Lemma line_returns (s : t) :
  returns (fun l s' => s' = s /\ nth_error (worksheet_lines s) (pos s) = Some l)
          (line s).
Proof.
  unfold line. destruct (nth_error _ _) eqn:E; cbn; [auto | discriminate].
Qed.

Lemma nth_error_in_range (s : t) (l : pystr) :
  nth_error (worksheet_lines s) (pos s) = Some l -> in_range s.
Proof.
  intros H. unfold in_range. apply nth_error_Some. congruence.
Qed.

Lemma is_cell_front_returns (s : t) :
  returns (fun (b : bool) s' =>
             worksheet_lines s' = worksheet_lines s /\ pos s' = pos s
             /\ in_range s
             /\ if b then (0 <= index s')%Z /\ is_cell_front s' = Ok (true, s')
                else s' = s)
          (is_cell_front s).
Proof.
  destruct (nth_error (worksheet_lines s) (pos s)) as [l|] eqn:E.
  - rewrite (is_cell_front_unfold s E).
    pose proof (nth_error_in_range s E) as Hr.
    destruct (CELL_FRONT l) as [ds|] eqn:Ef; [|cbn [returns]; auto].
    destruct (int_cases ds) as [(Ei & _ & _)|(Ei & _)]; rewrite Ei;
      cbn [returns]; [|discriminate].
    cbn [worksheet_lines pos index]. repeat split; auto.
    * apply digits_value_nonneg.
    * rewrite (@is_cell_front_unfold _ l) by exact E.
      cbn [worksheet_lines pos]. now rewrite Ef, Ei.
  - unfold is_cell_front, bind, line. rewrite E. cbn. discriminate.
Qed.

Lemma is_cell_mid_returns (s : t) :
  returns (fun b s' =>
             s' = s /\ in_range s
             /\ exists l, nth_error (worksheet_lines s) (pos s) = Some l
                          /\ CELL_MID l = b)
          (is_cell_mid s).
Proof.
  unfold is_cell_mid, bind, line.
  destruct (nth_error _ _) as [l|] eqn:E; cbn [returns]; [|discriminate].
  split; [reflexivity|]. split; [exact (nth_error_in_range s E)|].
  exists l. now split.
Qed.

Lemma is_cell_back_returns (s : t) :
  returns (fun b s' =>
             s' = s /\ in_range s
             /\ exists l, nth_error (worksheet_lines s) (pos s) = Some l
                          /\ CELL_BACK l = b)
          (is_cell_back s).
Proof.
  unfold is_cell_back, bind, line.
  destruct (nth_error _ _) as [l|] eqn:E; cbn [returns]; [|discriminate].
  split; [reflexivity|]. split; [exact (nth_error_in_range s E)|].
  exists l. now split.
Qed.

Lemma get_line_and_forward_returns (s : t) :
  returns (fun l s' =>
             nth_error (worksheet_lines s) (pos s) = Some l
             /\ s' = Build (worksheet_lines s) (pos s + 1) (index s))
          (get_line_and_forward s).
Proof.
  unfold get_line_and_forward, bind, line, forward, ret.
  destruct (nth_error _ _) as [l|]; cbn [returns]; [auto | discriminate].
Qed.

Lemma is_cell_front_marker :
  marker_spec is_cell_front (fun _ => True) (fun i => (0 <= i)%Z).
Proof.
  intros s _. eapply returns_weaken; [apply is_cell_front_returns|].
  intros [|] s' (HL & Hp & Hr & H); repeat split; auto; apply H.
Qed.

Lemma is_cell_mid_marker :
  marker_spec is_cell_mid (fun i => (0 <= i)%Z) (fun i => (0 <= i)%Z).
Proof.
  intros s Hi. eapply returns_weaken; [apply is_cell_mid_returns|].
  intros b s' (-> & Hr & l & Hl & Hb). repeat split; auto.
  destruct b; [split|]; auto.
  unfold is_cell_mid, bind, line. rewrite Hl. cbn. now rewrite Hb.
Qed.

Lemma is_cell_back_marker :
  marker_spec is_cell_back (fun i => (0 <= i)%Z) (fun i => (0 <= i)%Z).
Proof.
  intros s Hi. eapply returns_weaken; [apply is_cell_back_returns|].
  intros b s' (-> & Hr & l & Hl & Hb). repeat split; auto.
  destruct b; [split|]; auto.
  unfold is_cell_back, bind, line. rewrite Hl. cbn. now rewrite Hb.
Qed.

Lemma or_finished_returns (m : M bool) (Pre Post : Z -> Prop) (s : t) :
  marker_spec m Pre Post -> Pre (index s) ->
  returns (fun (b : bool) s' =>
             worksheet_lines s' = worksheet_lines s /\ pos s' = pos s
             /\ in_range s
             /\ if b then Post (index s') /\ m s' = Ok (true, s')
                else Pre (index s'))
          (or_ m is_finished s).
Proof.
  intros Hm HPre. unfold or_.
  eapply returns_bind; [exact (Hm s HPre)|].
  intros [|] s1 (HL & Hp & Hr & H).
  - cbn. auto.
  - unfold is_finished. cbn [returns].
    unfold in_range in Hr. rewrite HL, Hp.
    destruct (Nat.leb_spec (length (worksheet_lines s)) (pos s)); [lia|].
    auto.
Qed.

Lemma accumulate_returns (m : M bool) (Pre Post : Z -> Prop) :
  marker_spec m Pre Post ->
  forall (fuel : nat) (acc : list pystr) (s : t),
    Pre (index s) ->
    length (worksheet_lines s) - pos s < fuel ->
    returns (fun _ s' =>
               worksheet_lines s' = worksheet_lines s /\ pos s <= pos s'
               /\ in_range s' /\ Post (index s') /\ m s' = Ok (true, s'))
            (accumulate fuel (or_ m is_finished) acc s).
Proof.
  intros Hm fuel. induction fuel as [|fuel IH]; intros acc s HPre Hf;
    [lia|].
  cbn [accumulate].
  eapply returns_bind; [exact (or_finished_returns s Hm HPre)|].
  intros [|] s1 (HL & Hp & Hr & H).
  - destruct H as [HPost Hm1]. cbn.
    unfold in_range in *. rewrite HL, Hp. repeat split; auto.
  - eapply returns_bind; [apply get_line_and_forward_returns|].
    intros l s2 [_ ->].
    eapply returns_weaken.
    + apply IH; cbn [index worksheet_lines pos]; [exact H|].
      unfold in_range in Hr. rewrite HL, Hp. lia.
    + cbn [index worksheet_lines pos].
      intros _ s' (HL' & Hp' & Hr' & HPost & Hm'). repeat split; auto.
      * congruence.
      * lia.
Qed.

End Logic.

Section Methods.

Import WorksheetParser.

Variable unescape : pystr -> pystr.

Lemma try_read_text_returns (fuel : nat) (s : t) :
  length (worksheet_lines s) - pos s < fuel ->
  returns (fun text s' =>
             worksheet_lines s' = worksheet_lines s /\ pos s <= pos s'
             /\ in_range s' /\ (0 <= index s')%Z
             /\ is_cell_front s' = Ok (true, s')
             /\ Forall index_ok (option_to_list text))
          (_try_read_text unescape fuel s).
Proof.
  intros Hf. unfold _try_read_text.
  eapply returns_bind.
  - exact (accumulate_returns is_cell_front_marker [] s I Hf).
  - intros acc s1 (HL & Hp & Hr & Hi & Hm).
    destruct (strip _); cbn; repeat split; auto. repeat constructor.
Qed.

Lemma assert_true (m : M bool) (s : t) :
  m s = Ok (true, s) -> assert_ m s = Ok (tt, s).
Proof. intros H. unfold assert_, bind. now rewrite H. Qed.

Lemma read_cell_input_returns (fuel : nat) (s : t) :
  is_cell_front s = Ok (true, s) -> (0 <= index s)%Z -> in_range s ->
  length (worksheet_lines s) - pos s <= fuel ->
  returns (fun _ s' =>
             worksheet_lines s' = worksheet_lines s /\ pos s < pos s'
             /\ in_range s' /\ (0 <= index s')%Z
             /\ is_cell_mid s' = Ok (true, s'))
          (_read_cell_input unescape fuel s).
Proof.
  intros Hfront Hi Hr Hf. unfold _read_cell_input.
  unfold bind at 1. rewrite (assert_true _ Hfront).
  unfold bind at 1. cbn [forward].
  eapply returns_bind.
  - apply (accumulate_returns is_cell_mid_marker);
      cbn [index worksheet_lines pos]; [exact Hi|].
    unfold in_range in Hr. lia.
  - cbn [returns ret index worksheet_lines pos]. intros acc s1 (HL & Hp & Hr1 & Hi1 & Hm1).
    repeat split; auto; lia.
Qed.

Lemma read_cell_output_returns (fuel : nat) (s : t) :
  is_cell_mid s = Ok (true, s) -> (0 <= index s)%Z -> in_range s ->
  length (worksheet_lines s) - pos s <= fuel ->
  returns (fun _ s' =>
             worksheet_lines s' = worksheet_lines s /\ pos s < pos s'
             /\ in_range s' /\ (0 <= index s')%Z
             /\ is_cell_back s' = Ok (true, s'))
          (_read_cell_output unescape fuel s).
Proof.
  intros Hmid Hi Hr Hf. unfold _read_cell_output.
  unfold bind at 1. rewrite (assert_true _ Hmid).
  unfold bind at 1. cbn [forward].
  eapply returns_bind.
  - apply (accumulate_returns is_cell_back_marker);
      cbn [index worksheet_lines pos]; [exact Hi|].
    unfold in_range in Hr. lia.
  - cbn [returns ret index worksheet_lines pos]. intros acc s1 (HL & Hp & Hr1 & Hi1 & Hm1).
    repeat split; auto; lia.
Qed.

Lemma read_cell_returns (fuel : nat) (s : t) :
  is_cell_front s = Ok (true, s) -> (0 <= index s)%Z -> in_range s ->
  length (worksheet_lines s) - pos s <= fuel ->
  returns (fun c s' =>
             worksheet_lines s' = worksheet_lines s /\ pos s + 2 <= pos s'
             /\ in_range s' /\ is_cell_back s' = Ok (true, s')
             /\ index_ok c)
          (_read_cell unescape fuel s).
Proof.
  intros Hfront Hi Hr Hf. unfold _read_cell.
  eapply returns_bind; [now apply read_cell_input_returns|].
  intros input s1 (HL1 & Hp1 & Hr1 & Hi1 & Hmid).
  eapply returns_bind.
  { apply read_cell_output_returns; auto. rewrite HL1. lia. }
  intros output s2 (HL2 & Hp2 & Hr2 & Hi2 & Hback).
  unfold bind, get_index, lift, ComputeCell.new.
  destruct (Z.leb_spec 0 (index s2)); [|lia].
  cbn. repeat split; auto; [congruence | lia].
Qed.

Lemma iter_body_yields (fuel : nat) (s : t) :
  length (worksheet_lines s) - pos s < fuel ->
  yields index_ok
         (fun _ s' =>
            worksheet_lines s' = worksheet_lines s /\ pos s + 3 <= pos s'
            /\ pos s' <= length (worksheet_lines s)
            /\ exists l, nth_error (worksheet_lines s) (pos s' - 1) = Some l
                         /\ CELL_BACK l = true)
         (iter_body unescape fuel s).
Proof.
  intros Hf. unfold iter_body.
  eapply yields_gbind.
  { apply yields_call. now apply try_read_text_returns. }
  intros text s1 (HL1 & Hp1 & Hr1 & Hi1 & Hfront & Htext).
  eapply yields_gbind with (Q1 := fun _ s' => s' = s1).
  { destruct text as [c|]; split; cbn; auto. }
  intros _ ? ->.
  eapply yields_gbind.
  { apply yields_call. apply read_cell_returns; auto. rewrite HL1. lia. }
  intros c s2 (HL2 & Hp2 & Hr2 & Hback & Hc).
  eapply yields_gbind with (Q1 := fun _ s' => s' = s2).
  { split; cbn; auto. }
  intros _ ? ->.
  unfold gbind at 1, call at 1, is_finished.
  unfold in_range in Hr2.
  destruct (Nat.leb_spec (length (worksheet_lines s2)) (pos s2)); [lia|].
  cbn [negb app].
  unfold gbind, call. rewrite (assert_true _ Hback). cbn [forward].
  split; cbn; [constructor|].
  pose proof (is_cell_back_returns s2) as Hb. rewrite Hback in Hb.
  cbn in Hb. destruct Hb as (_ & _ & l & Hl & Hbl).
  assert (HL : worksheet_lines s2 = worksheet_lines s) by congruence.
  rewrite HL in *. repeat split; try lia.
  exists l. split; [|exact Hbl].
  replace (pos s2 + 1 - 1) with (pos s2) by lia. exact Hl.
Qed.

Lemma iter_yields (fuel : nat) (s : t) :
  length (worksheet_lines s) - pos s < fuel ->
  yields index_ok
         (fun _ s' =>
            worksheet_lines s' = worksheet_lines s
            /\ length (worksheet_lines s) <= pos s'
            /\ ends_after_close s s')
         (__iter__ unescape fuel s).
Proof.
  revert s. induction fuel as [|fuel IH]; intros s Hf; [lia|].
  cbn [__iter__].
  eapply yields_gbind
    with (Q1 := fun fin s' =>
                  s' = s /\ fin = (length (worksheet_lines s) <=? pos s)).
  { split; cbn; auto. }
  intros fin ? [-> ->].
  destruct (Nat.leb_spec (length (worksheet_lines s)) (pos s)) as [Hfin|Hin];
    cbn [negb].
  - split; cbn; [constructor|]. repeat split; auto. now left.
  - eapply yields_gbind; [apply iter_body_yields; exact Hf|].
    intros _ s1 (HL1 & Hp1 & Hle1 & l & Hl & Hb).
    destruct (IH s1) as [Hys Hr]; [rewrite HL1; lia|].
    split; [exact Hys|].
    eapply returns_weaken; [exact Hr|].
    intros _ s' (HL' & Hle' & Hend). rewrite HL1 in *.
    repeat split; auto. right.
    destruct Hend as [->|[Hp' Hlast]];
      [|rewrite HL1 in Hp', Hlast; now split].
    assert (Hp : pos s1 = length (worksheet_lines s)) by lia.
    split; [exact Hp|]. exists l. rewrite <- Hp. now split.
Qed.

(** A parse with enough fuel: what it yields and how it can end. *)
Lemma parse_yields (fuel : nat) (ws : pystr) :
  length (splitlines false ws) < fuel ->
  Forall index_ok (fst (parse unescape fuel ws))
  /\ snd (parse unescape fuel ws) <> NoFuel
  /\ snd (parse unescape fuel ws) <> Raise AssertionError
  /\ (snd (parse unescape fuel ws) = Ok tt ->
      splitlines false ws = []
      \/ exists l, nth_error (splitlines false ws)
                             (length (splitlines false ws) - 1) = Some l
                   /\ CELL_BACK l = true).
Proof.
  intros Hf. unfold parse.
  destruct (@iter_yields fuel (__init__ ws)) as [Hys Hr];
    [cbn; lia|].
  destruct (__iter__ unescape fuel (__init__ ws)) as [ys [[[] s']| |]];
    cbn [fst snd returns] in *.
  - repeat split; auto; try discriminate. intros _.
    destruct Hr as (_ & Hle & [->|[_ Hlast]]).
    + left. cbn in Hle. destruct (splitlines false ws); [reflexivity|].
      cbn in Hle. lia.
    + right. exact Hlast.
  - repeat split; auto; try discriminate. congruence.
  - contradiction.
Qed.

End Methods.

(** ** Fuel *)

Section Fuel.

Import WorksheetParser.

Lemma extends_refl (A : Type) (r : result A) : extends r r.
Proof. now right. Qed.

Lemma gextends_refl (A : Type) (g : list Cell * result A) : gextends g g.
Proof. now right. Qed.

Lemma extends_bind (A B : Type) (m m' : M A) (k k' : A -> M B) (s : t) :
  extends (m s) (m' s) ->
  (forall a s1, extends (k a s1) (k' a s1)) ->
  extends (bind m k s) (bind m' k' s).
Proof.
  unfold bind. intros [E|E] Hk; rewrite E; [now left|].
  destruct (m s) as [[a s1]| |]; [apply Hk | now right | now left].
Qed.

Lemma gextends_gbind (A B : Type) (m m' : Gen A) (k k' : A -> Gen B)
  (s : t) :
  gextends (m s) (m' s) ->
  (forall a s1, gextends (k a s1) (k' a s1)) ->
  gextends (gbind m k s) (gbind m' k' s).
Proof.
  unfold gbind. intros [E|E] Hk.
  - left. destruct (m s) as [ys r]. cbn in E. now subst r.
  - rewrite E. destruct (m s) as [ys [[a s1]| |]];
      [| now right | now left].
    destruct (Hk a s1) as [E1|E1].
    + left. destruct (k a s1) as [zs r]. cbn in *. now subst r.
    + right. now rewrite E1.
Qed.

Lemma gextends_call (A : Type) (m m' : M A) (s : t) :
  extends (m s) (m' s) -> gextends (call m s) (call m' s).
Proof. unfold call. intros [E|E]; [now left | right; now rewrite E]. Qed.

Lemma accumulate_extends (stop : M bool) (fuel fuel' : nat) :
  fuel <= fuel' ->
  forall acc s,
    extends (accumulate fuel stop acc s) (accumulate fuel' stop acc s).
Proof.
  revert fuel'. induction fuel as [|fuel IH]; intros fuel' Hle acc s;
    [now left|].
  destruct fuel' as [|fuel']; [lia|]. cbn [accumulate].
  apply extends_bind; [apply extends_refl|].
  intros [|] s1; [apply extends_refl|].
  apply extends_bind; [apply extends_refl|].
  intros l s2. apply IH. lia.
Qed.

Variable unescape : pystr -> pystr.

Lemma read_cell_extends (fuel fuel' : nat) (s : t) :
  fuel <= fuel' ->
  extends (_read_cell unescape fuel s) (_read_cell unescape fuel' s).
Proof.
  intros Hle. unfold _read_cell.
  apply extends_bind.
  { unfold _read_cell_input.
    apply extends_bind; [apply extends_refl | intros].
    apply extends_bind; [apply extends_refl | intros].
    apply extends_bind; [now apply accumulate_extends | intros].
    apply extends_refl. }
  intros input s1. apply extends_bind; [|intros; apply extends_refl].
  unfold _read_cell_output.
  apply extends_bind; [apply extends_refl | intros].
  apply extends_bind; [apply extends_refl | intros].
  apply extends_bind; [now apply accumulate_extends | intros].
  apply extends_refl.
Qed.

Lemma try_read_text_extends (fuel fuel' : nat) (s : t) :
  fuel <= fuel' ->
  extends (_try_read_text unescape fuel s) (_try_read_text unescape fuel' s).
Proof.
  intros Hle. unfold _try_read_text.
  apply extends_bind; [now apply accumulate_extends|].
  intros. apply extends_refl.
Qed.

Lemma iter_body_extends (fuel fuel' : nat) (s : t) :
  fuel <= fuel' ->
  gextends (iter_body unescape fuel s) (iter_body unescape fuel' s).
Proof.
  intros Hle. unfold iter_body.
  apply gextends_gbind;
    [apply gextends_call; now apply try_read_text_extends|].
  intros text s1. apply gextends_gbind; [apply gextends_refl|].
  intros _ s2. apply gextends_gbind;
    [apply gextends_call; now apply read_cell_extends|].
  intros. apply gextends_refl.
Qed.

Lemma iter_extends (fuel fuel' : nat) :
  fuel <= fuel' ->
  forall s, gextends (__iter__ unescape fuel s) (__iter__ unescape fuel' s).
Proof.
  revert fuel'. induction fuel as [|fuel IH]; intros fuel' Hle s;
    [now left|].
  destruct fuel' as [|fuel']; [lia|]. cbn [__iter__].
  apply gextends_gbind; [apply gextends_refl|].
  intros fin s1. destruct (negb fin); [|apply gextends_refl].
  apply gextends_gbind; [apply iter_body_extends; lia|].
  intros _ s2. apply IH. lia.
Qed.

Lemma parse_fuel (fuel : nat) (ws : pystr) :
  length (splitlines false ws) < fuel ->
  parse unescape fuel ws = cells unescape ws.
Proof.
  intros Hf. unfold cells.
  destruct (parse_yields unescape ws
              (Nat.lt_succ_diag_r (length (splitlines false ws))))
    as (_ & Hno & _).
  unfold parse in *.
  destruct (@iter_extends (S (length (splitlines false ws))) fuel Hf
              (__init__ ws)) as [E|E].
  - destruct (__iter__ unescape (S _) (__init__ ws)) as [ys [[]| |]];
      cbn in *; congruence.
  - now rewrite E.
Qed.

End Fuel.

(** ** The parser *)

(** C1: the parser raises on a truncated cell and at the end of trailing
    narrative text.  Each read loop tests [self.is_cell_... or
    self.is_finished] in that order, and the marker test reads
    [self.worksheet_lines[self.pos]] first, so reaching the end of the
    document raises [IndexError] before [is_finished] is consulted: no
    ComputeCell is produced for "{{{id=1|\nfoo\n///\nbar" and no TextCell for
    "Hello". *)
Theorem C1_end_of_document_raises :
  forall unescape : pystr -> pystr,
    WorksheetParser.cells unescape (py "{{{id=1|\nfoo\n///\nbar")
    = ([], Raise IndexError)
    /\ WorksheetParser.cells unescape (py "{{{id=1|\nfoo")
       = ([], Raise IndexError)
    /\ WorksheetParser.cells unescape (py "Hello") = ([], Raise IndexError)
    /\ WorksheetParser.cells unescape (py "{{{id=1|\nfoo\n///\nbar\n}}}\nbye")
       = ([Compute (ComputeCell.Build 1 (unescape (py "foo"))
                                      (unescape (py "bar")))],
          Raise IndexError).
Proof. intros unescape. repeat split; vm_compute; reflexivity. Qed.

(** C8: every ComputeCell a parse yields has a non-negative index, and the
    assertion of [ComputeCell.__init__] (like every other assertion of the
    parser) never fails. *)
Theorem C8_index_nonnegative :
  forall (unescape : pystr -> pystr) (ws : pystr),
    Forall index_ok (fst (WorksheetParser.cells unescape ws))
    /\ snd (WorksheetParser.cells unescape ws) <> Raise AssertionError.
Proof.
  intros unescape ws.
  destruct (parse_yields unescape ws
              (Nat.lt_succ_diag_r (length (splitlines false ws))))
    as (H1 & _ & H2 & _).
  now split.
Qed.

Section Segments.

Import WorksheetParser.

Variable unescape : pystr -> pystr.

Lemma skipn_cons_nth (A : Type) (L : list A) (p : nat) (x : A) (r : list A) :
  skipn p L = x :: r ->
  nth_error L p = Some x /\ skipn (p + 1) L = r /\ p < length L.
Proof.
  revert p. induction L as [|y L IH]; intros p H.
  - rewrite skipn_nil in H. discriminate.
  - destruct p as [|p]; cbn in H.
    + injection H as -> ->. cbn. repeat split. lia.
    + destruct (IH p H) as (H1 & H2 & H3). cbn. repeat split; auto. lia.
Qed.

Lemma bind_ok (A B : Type) (m : M A) (k : A -> M B) (s s1 : t) (a : A) :
  m s = Ok (a, s1) -> bind m k s = k a s1.
Proof. intros H. unfold bind. now rewrite H. Qed.

Lemma is_finished_in_range (L : list pystr) (p : nat) (i : Z) :
  p < length L -> is_finished (Build L p i) = Ok (false, Build L p i).
Proof.
  intros H. unfold is_finished. cbn [worksheet_lines pos].
  destruct (Nat.leb_spec (length L) p); [lia | reflexivity].
Qed.

(** A read loop over the lines [body] that the marker test rejects, up to
    the line it accepts. *)
Lemma accumulate_run (m : M bool) (L : list pystr) (i i' : Z)
  (body : list pystr) :
  forall (p : nat) (acc : list pystr) (fuel : nat) (l0 : pystr)
         (post : list pystr),
    skipn p L = body ++ l0 :: post ->
    (forall k l, In l body -> nth_error L k = Some l ->
                 m (Build L k i) = Ok (false, Build L k i)) ->
    m (Build L (p + length body) i) = Ok (true, Build L (p + length body) i') ->
    length body < fuel ->
    accumulate fuel (or_ m is_finished) acc (Build L p i)
    = Ok (acc ++ body, Build L (p + length body) i').
Proof.
  induction body as [|b body IH]; intros p acc fuel l0 post Hs Hrej Hacc Hf;
    (destruct fuel as [|fuel]; [cbn in Hf; lia|]); cbn [accumulate length] in *.
  - rewrite Nat.add_0_r in *. unfold or_, bind. rewrite Hacc.
    cbn [ret]. now rewrite app_nil_r.
  - cbn [app] in Hs. destruct (skipn_cons_nth _ _ Hs) as (Hn & Hs' & Hp).
    unfold or_, bind at 1 2.
    rewrite (Hrej p b (or_introl eq_refl) Hn).
    rewrite (is_finished_in_range L i Hp).
    unfold get_line_and_forward, bind at 1 2 3, line.
    cbn [worksheet_lines pos]. rewrite Hn.
    cbn [forward ret worksheet_lines pos index].
    fold (or_ m is_finished).
    rewrite (IH (p + 1) (acc ++ [b]) fuel l0 post); auto.
    + rewrite <- app_assoc. cbn [app]. do 3 f_equal. lia.
    + intros k l Hl. apply Hrej. now right.
    + replace (p + 1 + length body) with (p + S (length body)) by lia.
      exact Hacc.
    + lia.
Qed.

Lemma skipn_app_skip (A : Type) (L a r : list A) (p : nat) :
  skipn p L = a ++ r -> skipn (p + length a) L = r.
Proof.
  intros H. rewrite Nat.add_comm, <- skipn_skipn, H.
  rewrite skipn_app, skipn_all, Nat.sub_diag. reflexivity.
Qed.

Lemma front_reject (L : list pystr) (k : nat) (i : Z) (l : pystr) :
  CELL_FRONT l = None -> nth_error L k = Some l ->
  is_cell_front (Build L k i) = Ok (false, Build L k i).
Proof.
  intros Hl Hn. rewrite (@is_cell_front_unfold (Build L k i) l Hn).
  now rewrite Hl.
Qed.

Lemma front_accept (L : list pystr) (k : nat) (i : Z) (ds : pystr) :
  ds <> [] -> forallb is_digit ds = true -> within_limit ds = true ->
  nth_error L k = Some (py "{{{id=" ++ ds ++ py "|") ->
  is_cell_front (Build L k i) = Ok (true, Build L k (digits_value ds)).
Proof.
  intros Hne Hd Hlim Hn. rewrite (@is_cell_front_unfold (Build L k i) _ Hn).
  rewrite (CELL_FRONT_matches _ Hd). now rewrite (int_ok Hne Hlim).
Qed.

Lemma mid_at (L : list pystr) (k : nat) (i : Z) (l : pystr) :
  nth_error L k = Some l ->
  is_cell_mid (Build L k i) = Ok (CELL_MID l, Build L k i).
Proof.
  intros Hn. unfold is_cell_mid, bind, line. cbn [worksheet_lines pos].
  now rewrite Hn.
Qed.

Lemma back_at (L : list pystr) (k : nat) (i : Z) (l : pystr) :
  nth_error L k = Some l ->
  is_cell_back (Build L k i) = Ok (CELL_BACK l, Build L k i).
Proof.
  intros Hn. unfold is_cell_back, bind, line. cbn [worksheet_lines pos].
  now rewrite Hn.
Qed.

Lemma try_read_text_run (L text r : list pystr) (ds : pystr) (p fuel : nat)
  (i : Z) :
  skipn p L = text ++ (py "{{{id=" ++ ds ++ py "|") :: r ->
  Forall (fun l => CELL_FRONT l = None) text ->
  ds <> [] -> forallb is_digit ds = true -> within_limit ds = true ->
  length text < fuel ->
  _try_read_text unescape fuel (Build L p i)
  = Ok (match Spec.trimmed text with
        | [] => None
        | _ => Some (TextCell (unescape (Spec.trimmed text)))
        end,
        Build L (p + length text) (digits_value ds)).
Proof.
  intros Hs Htext Hne Hd Hlim Hf. unfold _try_read_text, bind.
  rewrite (@accumulate_run is_cell_front L i (digits_value ds) text p []
             fuel _ _ Hs).
  - cbn [app]. fold (Spec.trimmed text). now destruct (Spec.trimmed text).
  - intros k l Hin Hn. apply front_reject with (l := l); [|exact Hn].
    rewrite Forall_forall in Htext. now apply Htext.
  - apply front_accept; auto.
    now destruct (@skipn_cons_nth _ _ _ _ _ (@skipn_app_skip _ _ _ _ _ Hs)).
  - exact Hf.
Qed.

Lemma read_cell_input_run (L inp r : list pystr) (ds : pystr) (p fuel : nat)
  (i : Z) :
  skipn p L = (py "{{{id=" ++ ds ++ py "|") :: inp ++ py "///" :: r ->
  Forall (fun l => CELL_MID l = false) inp ->
  ds <> [] -> forallb is_digit ds = true -> within_limit ds = true ->
  length inp < fuel ->
  _read_cell_input unescape fuel (Build L p i)
  = Ok (unescape (Spec.trimmed inp),
        Build L (p + 1 + length inp) (digits_value ds)).
Proof.
  intros Hs Hinp Hne Hd Hlim Hf.
  destruct (@skipn_cons_nth _ _ _ _ _ Hs) as (Hn & Hs' & Hp).
  unfold _read_cell_input, assert_, bind at 1 2.
  rewrite (@front_accept L p i ds Hne Hd Hlim Hn).
  unfold bind at 1. cbn [ret forward worksheet_lines pos index]. unfold bind.
  rewrite (@accumulate_run is_cell_mid L (digits_value ds) (digits_value ds)
             inp (p + 1) [] fuel _ _ Hs').
  - reflexivity.
  - intros k l Hin Hk. rewrite (@mid_at L k _ l Hk).
    rewrite Forall_forall in Hinp. now rewrite (Hinp l Hin).
  - destruct (@skipn_cons_nth _ _ _ _ _ (@skipn_app_skip _ _ _ _ _ Hs')) as (Hm & _).
    now rewrite (@mid_at L _ _ _ Hm).
  - exact Hf.
Qed.

Lemma read_cell_output_run (L out r : list pystr) (p fuel : nat) (i : Z) :
  skipn p L = py "///" :: out ++ py "}}}" :: r ->
  Forall (fun l => CELL_BACK l = false) out ->
  length out < fuel ->
  _read_cell_output unescape fuel (Build L p i)
  = Ok (unescape (Spec.trimmed out), Build L (p + 1 + length out) i).
Proof.
  intros Hs Hout Hf.
  destruct (@skipn_cons_nth _ _ _ _ _ Hs) as (Hn & Hs' & Hp).
  unfold _read_cell_output, assert_, bind at 1 2.
  rewrite (@mid_at L p i _ Hn).
  change (CELL_MID (py "///")) with true.
  unfold bind at 1. cbn [ret forward worksheet_lines pos index]. unfold bind.
  rewrite (@accumulate_run is_cell_back L i i out (p + 1) [] fuel _ _ Hs').
  - reflexivity.
  - intros k l Hin Hk. rewrite (@back_at L k _ l Hk).
    rewrite Forall_forall in Hout. now rewrite (Hout l Hin).
  - destruct (@skipn_cons_nth _ _ _ _ _ (@skipn_app_skip _ _ _ _ _ Hs')) as (Hm & _).
    now rewrite (@back_at L _ _ _ Hm).
  - exact Hf.
Qed.

Lemma read_cell_run (L inp out r : list pystr) (ds : pystr) (p fuel : nat)
  (i : Z) :
  skipn p L
  = (py "{{{id=" ++ ds ++ py "|") :: inp ++ py "///" :: out ++ py "}}}" :: r ->
  Forall (fun l => CELL_MID l = false) inp ->
  Forall (fun l => CELL_BACK l = false) out ->
  ds <> [] -> forallb is_digit ds = true -> within_limit ds = true ->
  length inp < fuel -> length out < fuel ->
  _read_cell unescape fuel (Build L p i)
  = Ok (Compute (ComputeCell.Build (digits_value ds)
                   (unescape (Spec.trimmed inp))
                   (unescape (Spec.trimmed out))),
        Build L (p + 1 + length inp + 1 + length out) (digits_value ds)).
Proof.
  intros Hs Hinp Hout Hne Hd Hlim Hfi Hfo. unfold _read_cell, bind at 1.
  rewrite (@read_cell_input_run L inp _ ds p fuel i Hs Hinp Hne Hd Hlim Hfi).
  destruct (@skipn_cons_nth _ _ _ _ _ Hs) as (_ & Hs1 & _).
  apply skipn_app_skip in Hs1.
  unfold bind at 1.
  rewrite (@read_cell_output_run L out r _ fuel _ Hs1 Hout Hfo).
  unfold bind, get_index, lift, ComputeCell.new.
  cbn [index worksheet_lines pos].
  pose proof (digits_value_nonneg ds).
  destruct (Z.leb_spec 0 (digits_value ds)); [reflexivity | lia].
Qed.

Lemma seg_lines_app (g : Spec.segment) (post : list pystr) :
  Spec.seg_lines g ++ post
  = Spec.seg_text g
    ++ (py "{{{id=" ++ Spec.seg_digits g ++ py "|") :: Spec.seg_input g
    ++ py "///" :: Spec.seg_output g ++ py "}}}" :: post.
Proof.
  unfold Spec.seg_lines. rewrite <- app_assoc. cbn [app].
  rewrite <- app_assoc. cbn [app]. rewrite <- app_assoc. reflexivity.
Qed.

Lemma seg_lines_length (g : Spec.segment) :
  length (Spec.seg_lines g)
  = length (Spec.seg_text g) + 1 + length (Spec.seg_input g) + 1
    + length (Spec.seg_output g) + 1.
Proof.
  unfold Spec.seg_lines.
  repeat (rewrite length_app || cbn [length]). lia.
Qed.

Lemma gbind_call_ok (A B : Type) (m : M A) (k : A -> Gen B) (s s1 : t)
  (a : A) :
  m s = Ok (a, s1) -> gbind (call m) k s = k a s1.
Proof.
  intros H. unfold gbind, call. rewrite H. now destruct (k a s1).
Qed.

Lemma gbind_yield (B : Type) (c : Cell) (k : unit -> Gen B) (s : t) :
  gbind (yield c) k s = (c :: fst (k tt s), snd (k tt s)).
Proof. unfold gbind, yield. now destruct (k tt s). Qed.

Lemma gbind_gret (A B : Type) (a : A) (k : A -> Gen B) (s : t) :
  gbind (gret a) k s = k a s.
Proof. unfold gbind, gret. now destruct (k a s). Qed.

(** One turn of the loop of [__iter__] over a well-formed segment. *)
Lemma iter_body_segment (L post : list pystr) (g : Spec.segment)
  (p fuel : nat) (i : Z) :
  Spec.seg_wf g ->
  skipn p L = Spec.seg_lines g ++ post ->
  length L - p < fuel ->
  iter_body unescape fuel (Build L p i)
  = (Spec.seg_cells unescape g,
     Ok (tt, Build L (p + length (Spec.seg_lines g))
                   (digits_value (Spec.seg_digits g)))).
Proof.
  intros (Htext & Hne & Hd & Hlim & Hinp & Hout) Hs Hf.
  assert (Hlen : length (Spec.seg_lines g) + length post = length L - p).
  { rewrite <- length_skipn, Hs. apply eq_sym, length_app. }
  rewrite seg_lines_length in Hlen.
  rewrite seg_lines_app in Hs.
  pose proof (skipn_app_skip _ _ _ _ Hs) as Hs1.
  destruct (@skipn_cons_nth _ _ _ _ _ Hs1) as (_ & Hs2 & _).
  apply skipn_app_skip in Hs2.
  destruct (@skipn_cons_nth _ _ _ _ _ Hs2) as (_ & Hs3 & _).
  apply skipn_app_skip in Hs3.
  destruct (@skipn_cons_nth _ _ _ _ _ Hs3) as (Hback & _ & Hp5).
  set (p1 := p + length (Spec.seg_text g)) in *.
  set (p5 := p1 + 1 + length (Spec.seg_input g) + 1
             + length (Spec.seg_output g)) in *.
  set (idx := digits_value (Spec.seg_digits g)).
  assert (Hread :
    _read_cell unescape fuel (Build L p1 idx)
    = Ok (Compute (ComputeCell.Build idx
                     (unescape (Spec.trimmed (Spec.seg_input g)))
                     (unescape (Spec.trimmed (Spec.seg_output g)))),
          Build L p5 idx)).
  { apply read_cell_run with (r := post); auto; lia. }
  assert (Hfinal :
    gbind (call is_finished)
      (fun fin => if negb fin
                  then gbind (call (assert_ is_cell_back))
                             (fun _ => call forward)
                  else gret tt) (Build L p5 idx)
    = ([], Ok (tt, Build L (p + length (Spec.seg_lines g)) idx))).
  { rewrite (@gbind_call_ok _ _ _ _ _ _ _ (is_finished_in_range L idx Hp5)). cbn [negb].
    rewrite (@gbind_call_ok _ _ _ _ _ (Build L p5 idx) tt).
    - unfold call, forward. cbn [worksheet_lines pos index].
      rewrite seg_lines_length. do 4 f_equal. subst p5 p1. lia.
    - unfold assert_, bind. rewrite (@back_at L p5 idx _ Hback).
      reflexivity. }
  unfold iter_body.
  rewrite (@gbind_call_ok _ _ _ _ _ _ _
             (@try_read_text_run L _ _ _ p fuel i Hs Htext Hne Hd Hlim
                ltac:(lia))).
  fold p1. fold idx. unfold Spec.seg_cells.
  destruct (Spec.trimmed (Spec.seg_text g)) as [|c0 text0].
  - rewrite gbind_gret. rewrite (@gbind_call_ok _ _ _ _ _ _ _ Hread).
    rewrite gbind_yield, Hfinal. reflexivity.
  - rewrite gbind_yield. rewrite (@gbind_call_ok _ _ _ _ _ _ _ Hread).
    rewrite gbind_yield, Hfinal. reflexivity.
Qed.

(** The loop over a run of well-formed segments: their cells come out in
    order, and the loop goes on from the line after the last of them. *)
Lemma iter_segments (L : list pystr) (segs : list Spec.segment) :
  forall (p fuel : nat) (i : Z) (post : list pystr),
    Forall Spec.seg_wf segs ->
    skipn p L = flat_map Spec.seg_lines segs ++ post ->
    length L - p < fuel ->
    exists (i' : Z) (fuel' : nat),
      length L - (p + length (flat_map Spec.seg_lines segs)) < fuel'
      /\ __iter__ unescape fuel (Build L p i)
         = let (zs, r) :=
             __iter__ unescape fuel'
               (Build L (p + length (flat_map Spec.seg_lines segs)) i') in
           (flat_map (Spec.seg_cells unescape) segs ++ zs, r).
Proof.
  induction segs as [|g segs IH]; intros p fuel i post Hwf Hs Hf.
  - exists i, fuel. cbn [flat_map length app]. rewrite Nat.add_0_r.
    split; [exact Hf|]. now destruct (__iter__ _ _ _).
  - inversion Hwf as [|? ? Hg Hsegs]; subst.
    cbn [flat_map] in Hs |- *. rewrite <- app_assoc in Hs.
    assert (Hlen : length (Spec.seg_lines g)
                   + length (flat_map Spec.seg_lines segs ++ post)
                   = length L - p).
    { rewrite <- length_skipn, Hs. apply eq_sym, length_app. }
    pose proof (seg_lines_length g) as Hg3.
    destruct fuel as [|fuel]; [lia|].
    destruct (IH (p + length (Spec.seg_lines g)) fuel
                 (digits_value (Spec.seg_digits g)) post Hsegs
                 (skipn_app_skip _ _ _ _ Hs) ltac:(lia))
      as (i' & fuel' & Hf' & Hrun).
    exists i', fuel'. rewrite length_app. split; [lia|].
    cbn [__iter__].
    rewrite (@gbind_call_ok _ _ _ _ _ _ _
               (@is_finished_in_range L p i ltac:(lia))).
    cbn [negb]. unfold gbind at 1.
    rewrite (@iter_body_segment L _ g p (S fuel) i Hg Hs Hf).
    rewrite Hrun. rewrite Nat.add_assoc.
    destruct (__iter__ unescape fuel' _) as [zs r]. now rewrite app_assoc.
Qed.

Lemma iter_finished (L : list pystr) (p fuel : nat) (i : Z) :
  length L <= p -> 0 < fuel ->
  __iter__ unescape fuel (Build L p i) = ([], Ok (tt, Build L p i)).
Proof.
  intros Hp Hf. destruct fuel as [|fuel]; [lia|]. cbn [__iter__].
  unfold gbind, call, is_finished. cbn [worksheet_lines pos].
  destruct (Nat.leb_spec (length L) p); [reflexivity | lia].
Qed.

End Segments.

(** C7: when the lines of a document begin with well-formed segments
    (narrative lines, open marker with a digit run that [int] converts,
    input, mid marker, output, close marker), the parse yields, for each segment in document order, its TextCell when
    the narrative is not blank, immediately followed by its ComputeCell, and
    nothing in between; if nothing follows the segments these are all the
    cells and the iteration ends normally.  The document
    "{{{id=3|\nx = 1\n///\n4\n}}}" yields exactly one cell, the ComputeCell
    with index 3, input [unescape "x = 1"] and output [unescape "4"]. *)
Theorem C7_cells_in_document_order
  (unescape : pystr -> pystr) (ws : pystr) (segs : list Spec.segment)
  (rest : list pystr) :
  Forall Spec.seg_wf segs ->
  splitlines false ws = flat_map Spec.seg_lines segs ++ rest ->
  (exists more r,
      WorksheetParser.cells unescape ws
      = (flat_map (Spec.seg_cells unescape) segs ++ more, r)
      /\ (rest = [] -> more = [] /\ r = Ok tt))
  /\ WorksheetParser.cells unescape (py "{{{id=3|\nx = 1\n///\n4\n}}}")
     = ([Compute (ComputeCell.Build 3 (unescape (py "x = 1"))
                                     (unescape (py "4")))],
        Ok tt)
  /\ (unescape (py "x = 1") = py "x = 1" -> unescape (py "4") = py "4" ->
      WorksheetParser.cells unescape (py "{{{id=3|\nx = 1\n///\n4\n}}}")
      = ([Compute (ComputeCell.Build 3 (py "x = 1") (py "4"))], Ok tt)).
Proof.
  intros Hwf Hs. split; [|split].
  - unfold WorksheetParser.cells, WorksheetParser.parse,
      WorksheetParser.__init__.
    set (L := splitlines false ws) in *.
    destruct (@iter_segments unescape L segs 0 (S (length L)) (-1)%Z rest
                Hwf Hs ltac:(lia))
      as (i' & fuel' & Hf' & Hrun).
    rewrite Hrun. cbn [Nat.add] in *.
    destruct (WorksheetParser.__iter__ unescape fuel' _) as [zs r] eqn:E.
    exists zs.
    exists (match r with
            | Ok _ => Ok tt
            | Raise e => Raise e
            | NoFuel => NoFuel
            end).
    split; [now destruct r|].
    intros ->. rewrite app_nil_r in Hs.
    rewrite iter_finished in E; [|rewrite <- Hs; lia|lia].
    injection E as <- <-. now split.
  - vm_compute. reflexivity.
  - intros H1 H2.
    transitivity
      ([Compute (ComputeCell.Build 3 (unescape (py "x = 1"))
                                     (unescape (py "4")))],
       @Ok unit tt).
    + vm_compute. reflexivity.
    + now rewrite H1, H2.
Qed.

Lemma C7_cells_in_document_order_witness :
  WorksheetParser.cells (fun s => s) (py "{{{id=3|\nx = 1\n///\n4\n}}}")
  = ([Compute (ComputeCell.Build 3 (py "x = 1") (py "4"))], Ok tt).
Proof.
  refine (proj2 (proj2
            (@C7_cells_in_document_order (fun s => s)
               (py "{{{id=3|\nx = 1\n///\n4\n}}}")
               [Spec.Segment [] (py "3") [py "x = 1"] [py "4"]] [] _ _))
            eq_refl eq_refl).
  - repeat constructor. discriminate.
  - reflexivity.
Defined.

(** Scenario B of the specification: narrative text, then a cell whose
    input starts with a legacy directive. *)
Example parse_text_then_cell :
  WorksheetParser.cells (fun s => s)
    (py "Hello\n{{{id=0|\n%hide\nprint(1)\n///\n1\n}}}")
  = ([TextCell (py "Hello");
      Compute (ComputeCell.Build 0 (py "%hide\nprint(1)") (py "1"))],
     Ok tt)
  /\ ComputeCell.ipython_input
       (ComputeCell.Build 0 (py "%hide\nprint(1)") (py "1"))
     = py "print(1)".
Proof. split; vm_compute; reflexivity. Qed.

(** C10: a parse pass terminates.  With any fuel above the number of lines
    no loop of the parse runs out of fuel, and the result is the same for
    all such fuel; reading a line moves the cursor forward by exactly one,
    a marker test leaves it in place, and every completed turn of the loop
    of [__iter__] moves it forward by at least three lines and never past
    the end. *)
Theorem C10_parse_terminates
  (unescape : pystr -> pystr) (ws : pystr) (fuel : nat) :
  length (splitlines false ws) < fuel ->
  snd (WorksheetParser.parse unescape fuel ws) <> NoFuel
  /\ WorksheetParser.parse unescape fuel ws = WorksheetParser.cells unescape ws
  /\ (forall s l s',
         WorksheetParser.get_line_and_forward s = Ok (l, s') ->
         WorksheetParser.pos s' = WorksheetParser.pos s + 1)
  /\ (forall s b s',
         WorksheetParser.is_cell_front s = Ok (b, s')
         \/ WorksheetParser.is_cell_mid s = Ok (b, s')
         \/ WorksheetParser.is_cell_back s = Ok (b, s') ->
         WorksheetParser.pos s' = WorksheetParser.pos s)
  /\ (forall s ys s',
         WorksheetParser.worksheet_lines s = splitlines false ws ->
         WorksheetParser.iter_body unescape fuel s = (ys, Ok (tt, s')) ->
         WorksheetParser.pos s + 3 <= WorksheetParser.pos s'
         /\ WorksheetParser.pos s' <= length (splitlines false ws)).
Proof.
  intros Hf.
  destruct (parse_yields unescape ws Hf) as (_ & Hno & _).
  split; [exact Hno|]. split; [now apply parse_fuel|].
  split; [|split].
  - intros s l s' H.
    pose proof (get_line_and_forward_returns s) as Hr. rewrite H in Hr.
    cbn in Hr. destruct Hr as [_ ->]. reflexivity.
  - intros s b s' [H|[H|H]].
    + pose proof (is_cell_front_returns s) as Hr. rewrite H in Hr.
      cbn in Hr. apply Hr.
    + pose proof (is_cell_mid_returns s) as Hr. rewrite H in Hr.
      cbn in Hr. destruct Hr as [-> _]. reflexivity.
    + pose proof (is_cell_back_returns s) as Hr. rewrite H in Hr.
      cbn in Hr. destruct Hr as [-> _]. reflexivity.
  - intros s ys s' HL H.
    destruct (@iter_body_yields unescape fuel s) as [_ Hr];
      [rewrite HL; lia|].
    rewrite H in Hr. cbn in Hr. rewrite HL in Hr.
    destruct Hr as (_ & H1 & H2 & _). now split.
Qed.

Lemma C10_parse_terminates_witness :
  WorksheetParser.parse (fun s => s) 6 (py "{{{id=3|\nx = 1\n///\n4\n}}}")
  = WorksheetParser.cells (fun s => s) (py "{{{id=3|\nx = 1\n///\n4\n}}}").
Proof.
  apply (C10_parse_terminates (fun s => s)
           (py "{{{id=3|\nx = 1\n///\n4\n}}}") (fuel := 6)).
  vm_compute. lia.
Defined.

(** * Further properties *)

(** ** The mid and close markers *)

Section MidBack.

Lemma at_dollar_no_linebreak (p t : pystr) :
  no_linebreak (p ++ t) = true -> at_dollar t = true -> t = [].
Proof.
  intros Hnb Hd. destruct t as [|x [|y t]]; cbn in Hd;
    [reflexivity | | discriminate].
  apply N.eqb_eq in Hd. subst x.
  rewrite no_linebreak_snoc_newline in Hnb. discriminate.
Qed.

Lemma CELL_MID_exact (l : pystr) :
  no_linebreak l = true -> (CELL_MID l = true <-> l = py "///").
Proof.
  intros Hnb. split; [|now intros ->].
  unfold CELL_MID.
  destruct (strip_prefix (py "///") l) as [t|] eqn:E; [|discriminate].
  apply strip_prefix_some in E. subst l. intros Hd.
  rewrite (at_dollar_no_linebreak _ _ Hnb Hd). reflexivity.
Qed.

Lemma CELL_BACK_exact (l : pystr) :
  no_linebreak l = true -> (CELL_BACK l = true <-> l = py "}}}").
Proof.
  intros Hnb. split; [|now intros ->].
  unfold CELL_BACK.
  destruct (strip_prefix (py "}}}") l) as [t|] eqn:E; [|discriminate].
  apply strip_prefix_some in E. subst l. intros Hd.
  rewrite (at_dollar_no_linebreak _ _ Hnb Hd). reflexivity.
Qed.

End MidBack.

(** X1: on a line of the worksheet, [is_cell_mid] is true exactly on the
    line "///" and [is_cell_back] exactly on the line "}}}"; neither raises
    nor changes the parser. *)
Theorem X1_mid_back_classify (ws : pystr) (p : nat) (i : Z) (l : pystr) :
  nth_error (splitlines false ws) p = Some l ->
  let self := WorksheetParser.Build (splitlines false ws) p i in
  (exists b, WorksheetParser.is_cell_mid self = Ok (b, self)
             /\ (b = true <-> l = py "///"))
  /\ (exists b, WorksheetParser.is_cell_back self = Ok (b, self)
                /\ (b = true <-> l = py "}}}")).
Proof.
  intros Hl self.
  assert (Hnb : no_linebreak l = true)
    by exact (nth_error_Forall _ (splitlines_no_linebreak ws) Hl).
  split.
  - exists (CELL_MID l). split; [|now apply CELL_MID_exact].
    exact (@mid_at _ _ _ _ Hl).
  - exists (CELL_BACK l). split; [|now apply CELL_BACK_exact].
    exact (@back_at _ _ _ _ Hl).
Qed.

Lemma X1_mid_back_classify_witness :
  let self := WorksheetParser.Build
                (splitlines false (py "{{{id=1|\nx\n///\ny\n}}}")) 2 1 in
  exists b, WorksheetParser.is_cell_mid self = Ok (b, self)
            /\ (b = true <-> py "///" = py "///").
Proof.
  cbv zeta.
  exact (proj1 (X1_mid_back_classify (py "{{{id=1|\nx\n///\ny\n}}}") 2 1
                  eq_refl)).
Defined.

(** ** What every parse yields *)

Section Stream.

Import WorksheetParser.

Variable unescape : pystr -> pystr.

Lemma bind_inv (A B : Type) (m : M A) (k : A -> M B) (s s' : t) (b : B) :
  bind m k s = Ok (b, s') ->
  exists a s1, m s = Ok (a, s1) /\ k a s1 = Ok (b, s').
Proof.
  unfold bind. destruct (m s) as [[a s1]| |]; [|discriminate..].
  intros H. now exists a, s1.
Qed.

Lemma lstrip_head (s : pystr) (c : char) (r : pystr) :
  lstrip s = c :: r -> is_space c = false.
Proof.
  induction s as [|x s IH]; cbn [lstrip]; [discriminate|].
  destruct (is_space x) eqn:E; [exact IH|].
  intros H. injection H as -> _. exact E.
Qed.

Lemma strip_idem (s : pystr) : strip (strip s) = strip s.
Proof.
  change (strip s) with (rstrip (lstrip s)).
  destruct (lstrip s) as [|c r] eqn:E; [reflexivity|].
  pose proof (lstrip_head s E) as Hc.
  rewrite (@rstrip_cons c r Hc). unfold strip. cbn [lstrip]. rewrite Hc.
  rewrite (@rstrip_cons c _ Hc). now rewrite rstrip_idem.
Qed.

Lemma try_read_text_value (fuel : nat) (s s1 : t) (text : option Cell) :
  _try_read_text unescape fuel s = Ok (text, s1) ->
  text = None
  \/ exists a, text = Some (TextCell a) /\ cell_trimmed unescape (TextCell a).
Proof.
  unfold _try_read_text. intros H.
  apply bind_inv in H as (acc & s0 & _ & H).
  destruct (strip (join (py "\n") acc)) as [|c r] eqn:E; cbn in H.
  - injection H as <- _. now left.
  - injection H as <- _. right. eexists. split; [reflexivity|].
    exists (c :: r). split; [discriminate|]. split; [|reflexivity].
    rewrite <- E. apply strip_idem.
Qed.

Lemma read_cell_input_value (fuel : nat) (s s1 : t) (a : pystr) :
  _read_cell_input unescape fuel s = Ok (a, s1) ->
  exists x, strip x = x /\ a = unescape x.
Proof.
  unfold _read_cell_input. intros H.
  apply bind_inv in H as (? & ? & _ & H).
  apply bind_inv in H as (? & ? & _ & H).
  apply bind_inv in H as (acc & ? & _ & H).
  cbn in H. injection H as <- _.
  eexists. split; [apply strip_idem | reflexivity].
Qed.

Lemma read_cell_output_value (fuel : nat) (s s1 : t) (a : pystr) :
  _read_cell_output unescape fuel s = Ok (a, s1) ->
  exists x, strip x = x /\ a = unescape x.
Proof.
  unfold _read_cell_output. intros H.
  apply bind_inv in H as (? & ? & _ & H).
  apply bind_inv in H as (? & ? & _ & H).
  apply bind_inv in H as (acc & ? & _ & H).
  cbn in H. injection H as <- _.
  eexists. split; [apply strip_idem | reflexivity].
Qed.

Lemma read_cell_value (fuel : nat) (s s1 : t) (c : Cell) :
  _read_cell unescape fuel s = Ok (c, s1) ->
  is_compute c = true /\ cell_trimmed unescape c.
Proof.
  unfold _read_cell. intros H.
  apply bind_inv in H as (inp & s2 & Hi & H).
  apply bind_inv in H as (out & s3 & Ho & H).
  apply bind_inv in H as (idx & s4 & _ & H).
  apply bind_inv in H as (cc & s5 & Hc & H).
  cbn in H. injection H as <- _.
  split; [reflexivity|].
  unfold lift, ComputeCell.new in Hc.
  destruct (0 <=? idx)%Z; [|discriminate]. injection Hc as <- _.
  destruct (read_cell_input_value _ _ Hi) as (ti & Hti & ->).
  destruct (read_cell_output_value _ _ Ho) as (to & Hto & ->).
  now exists ti, to.
Qed.

Lemma after_cell_silent (s : t) : fst (after_cell s) = [].
Proof.
  unfold after_cell, gbind, call, is_finished, gret.
  destruct (negb _); [|reflexivity].
  destruct (assert_ is_cell_back _) as [[[] s1]| |]; reflexivity.
Qed.

(** One turn of the loop, by the outcome of its two reads. *)
Lemma iter_body_cases (fuel : nat) (s : t) :
  iter_body unescape fuel s
  = match _try_read_text unescape fuel s with
    | Ok (text, s1) =>
        match _read_cell unescape fuel s1 with
        | Ok (c, s2) => (option_to_list text ++ [c], snd (after_cell s2))
        | Raise e => (option_to_list text, Raise e)
        | NoFuel => (option_to_list text, NoFuel)
        end
    | Raise e => ([], Raise e)
    | NoFuel => ([], NoFuel)
    end.
Proof.
  unfold iter_body. fold after_cell.
  unfold gbind at 1, call at 1.
  destruct (_try_read_text unescape fuel s) as [[text s1]| |];
    [|reflexivity..].
  cbn [app].
  assert (H : gbind (call (_read_cell unescape fuel))
               (fun c => gbind (yield c) (fun _ => after_cell)) s1
             = match _read_cell unescape fuel s1 with
               | Ok (c, s2) => ([c], snd (after_cell s2))
               | Raise e => ([], Raise e)
               | NoFuel => ([], NoFuel)
               end).
  { unfold gbind at 1, call at 1.
    destruct (_read_cell unescape fuel s1) as [[c s2]| |]; [|reflexivity..].
    rewrite gbind_yield, after_cell_silent. reflexivity. }
  destruct text as [c0|]; cbn [option_to_list].
  - rewrite gbind_yield, H.
    destruct (_read_cell unescape fuel s1) as [[c s2]| |]; reflexivity.
  - rewrite gbind_gret, H.
    destruct (_read_cell unescape fuel s1) as [[c s2]| |]; reflexivity.
Qed.

Lemma ends_with_compute_app (pre zs : list Cell) (c : Cell) :
  is_compute c = true -> ends_with_compute zs = true ->
  ends_with_compute (pre ++ c :: zs) = true.
Proof.
  intros Hc Hzs. unfold ends_with_compute in *.
  rewrite rev_app_distr. cbn [rev]. rewrite <- app_assoc.
  destruct (rev zs) as [|z r]; [exact Hc | exact Hzs].
Qed.

Lemma stream_ok_turn (text : option Cell) (c : Cell) (zs : list Cell) :
  (text = None
   \/ exists a, text = Some (TextCell a)
                /\ cell_trimmed unescape (TextCell a)) ->
  is_compute c = true -> cell_trimmed unescape c ->
  stream_ok unescape zs ->
  stream_ok unescape (option_to_list text ++ c :: zs).
Proof.
  intros Ht Hc Hct [Ha Hz].
  destruct Ht as [->|(a & -> & Hta)]; cbn [option_to_list app].
  - split; [cbn; now rewrite Hc | now constructor].
  - split; [cbn; now rewrite Hc | now repeat constructor].
Qed.

Lemma stream_ok_text (text : option Cell) :
  (text = None
   \/ exists a, text = Some (TextCell a)
                /\ cell_trimmed unescape (TextCell a)) ->
  stream_ok unescape (option_to_list text).
Proof.
  intros [->|(a & -> & Hta)]; cbn; split; try reflexivity;
    now repeat constructor.
Qed.

Lemma iter_stream (fuel : nat) :
  forall s,
    stream_ok unescape (fst (__iter__ unescape fuel s))
    /\ (forall x, snd (__iter__ unescape fuel s) = Ok x ->
        ends_with_compute (fst (__iter__ unescape fuel s)) = true).
Proof.
  induction fuel as [|fuel IH]; intros s.
  - cbn. split; [split; [reflexivity | constructor] | discriminate].
  - cbn [__iter__]. unfold gbind, call, is_finished. cbv beta.
    destruct (length (worksheet_lines s) <=? pos s); cbn [negb app];
      [cbn; split; [split; [reflexivity | constructor] | reflexivity]|].
    rewrite iter_body_cases.
    destruct (_try_read_text unescape (S fuel) s) as [[text s1]| |] eqn:Et;
      try (cbn; split; [split; [reflexivity | constructor] | discriminate]).
    pose proof (try_read_text_value _ _ Et) as Ht.
    destruct (_read_cell unescape (S fuel) s1) as [[c s2]| |] eqn:Ec;
      try (cbn [fst snd]; split;
           [now apply stream_ok_text | discriminate]).
    destruct (read_cell_value _ _ Ec) as [Hc Hct].
    destruct (snd (after_cell s2)) as [[[] s3]| |].
    + destruct (IH s3) as [Hs He].
      destruct (__iter__ unescape fuel s3) as [zs r]. cbn [fst snd] in *.
      rewrite <- app_assoc. cbn [app]. split.
      * now apply stream_ok_turn.
      * intros x Hx. apply ends_with_compute_app; eauto.
    + cbn [fst snd]. split; [|discriminate].
      apply stream_ok_turn; auto. split; [reflexivity | constructor].
    + cbn [fst snd]. split; [|discriminate].
      apply stream_ok_turn; auto. split; [reflexivity | constructor].
Qed.

Lemma parse_stream (fuel : nat) (ws : pystr) :
  stream_ok unescape (fst (parse unescape fuel ws))
  /\ (snd (parse unescape fuel ws) = Ok tt ->
      ends_with_compute (fst (parse unescape fuel ws)) = true).
Proof.
  unfold parse. destruct (iter_stream fuel (__init__ ws)) as [Hs He].
  destruct (__iter__ unescape fuel (__init__ ws)) as [ys [[[] s']| |]];
    cbn [fst snd] in *; split; auto; try discriminate.
  intros _. eapply He. reflexivity.
Qed.

End Stream.

(** X2: in the cells of a parse, however it ends, no TextCell directly
    follows a TextCell, and a parse that ends normally does not end on a
    TextCell. *)
Theorem X2_text_cells_alternate
  (unescape : pystr -> pystr) (ws : pystr) :
  alternates false (fst (WorksheetParser.cells unescape ws)) = true
  /\ (snd (WorksheetParser.cells unescape ws) = Ok tt ->
      ends_with_compute (fst (WorksheetParser.cells unescape ws)) = true).
Proof.
  unfold WorksheetParser.cells.
  destruct (parse_stream unescape (S (length (splitlines false ws))) ws)
    as [[Ha _] He].
  now split.
Qed.

(** X3: the texts of every yielded cell are [unescape] applied to text
    without leading or trailing whitespace, and the text a TextCell was
    made from is never blank. *)
Theorem X3_cell_texts_trimmed
  (unescape : pystr -> pystr) (ws : pystr) :
  Forall (cell_trimmed unescape) (fst (WorksheetParser.cells unescape ws)).
Proof.
  unfold WorksheetParser.cells.
  destruct (parse_stream unescape (S (length (splitlines false ws))) ws)
    as [[_ Ht] _].
  exact Ht.
Qed.

(** ** How a parse ends and how much it yields *)

Section Ending.

Import WorksheetParser.

Variable unescape : pystr -> pystr.

Lemma splitlines_nil (s : pystr) : splitlines false s = [] -> s = [].
Proof.
  destruct s as [|c r]; [reflexivity|]. cbn [splitlines].
  destruct (is_linebreak c).
  - destruct r as [|d r']; [discriminate|].
    destruct (N.eqb c 13 && N.eqb d 10); discriminate.
  - destruct (splitlines false r); discriminate.
Qed.

Lemma nth_error_last_app (A : Type) (L : list A) (x : A) :
  nth_error L (length L - 1) = Some x -> exists pre, L = pre ++ [x].
Proof.
  intros H. destruct (@exists_last _ L) as (pre & y & ->).
  - intros ->. discriminate.
  - exists pre. rewrite length_app in H. cbn [length] in H.
    replace (length pre + 1 - 1) with (length pre) in H by lia.
    rewrite nth_error_app2, Nat.sub_diag in H by lia.
    cbn in H. now injection H as ->.
Qed.

Lemma after_cell_run (s : t) :
  in_range s -> is_cell_back s = Ok (true, s) ->
  after_cell s
  = ([], Ok (tt, Build (worksheet_lines s) (pos s + 1) (index s))).
Proof.
  intros Hr Hb. unfold after_cell, gbind, call, is_finished.
  unfold in_range in Hr.
  destruct (Nat.leb_spec (length (worksheet_lines s)) (pos s)); [lia|].
  cbn [negb]. rewrite (assert_true _ Hb). reflexivity.
Qed.

Lemma count_compute_app (a b : list Cell) :
  count_compute (a ++ b) = count_compute a + count_compute b.
Proof. unfold count_compute. now rewrite filter_app, length_app. Qed.

Lemma count_compute_text (text : option Cell) :
  (text = None
   \/ exists a, text = Some (TextCell a)
                /\ cell_trimmed unescape (TextCell a)) ->
  count_compute (option_to_list text) = 0.
Proof. intros [->|(a & -> & _)]; reflexivity. Qed.

Lemma iter_count (fuel : nat) :
  forall s,
    length (worksheet_lines s) - pos s < fuel ->
    3 * count_compute (fst (__iter__ unescape fuel s))
    <= length (worksheet_lines s) - pos s.
Proof.
  induction fuel as [|fuel IH]; intros s Hf; [lia|].
  cbn [__iter__]. unfold gbind, call, is_finished. cbv beta.
  destruct (Nat.leb_spec (length (worksheet_lines s)) (pos s)) as [Hfin|Hin];
    cbn [negb app]; [cbn; lia|].
  rewrite iter_body_cases.
  pose proof (try_read_text_returns unescape s Hf) as Ht.
  destruct (_try_read_text unescape (S fuel) s) as [[text s1]| |] eqn:Et;
    [|cbn; lia..].
  cbn [returns] in Ht. destruct Ht as (HL1 & Hp1 & Hr1 & Hi1 & Hfront & _).
  pose proof (count_compute_text (try_read_text_value _ _ _ Et)) as Hc0.
  assert (Hc : length (worksheet_lines s1) - pos s1 <= S fuel)
    by (rewrite HL1; lia).
  pose proof (read_cell_returns unescape Hfront Hi1 Hr1 Hc) as Hrc.
  destruct (_read_cell unescape (S fuel) s1) as [[c s2]| |] eqn:Ec;
    [|cbn [fst]; rewrite Hc0; lia..].
  cbn [returns] in Hrc. destruct Hrc as (HL2 & Hp2 & Hr2 & Hback & _).
  destruct (read_cell_value _ _ _ Ec) as [Hcc _].
  rewrite (after_cell_run Hr2 Hback). cbn [snd].
  unfold in_range in Hr2.
  specialize (IH (Build (worksheet_lines s2) (pos s2 + 1) (index s2))).
  cbn [worksheet_lines pos] in IH.
  destruct (__iter__ unescape fuel _) as [zs r]. cbn [fst] in *.
  rewrite !count_compute_app, Hc0.
  assert (count_compute [c] = 1) as -> by (unfold count_compute; cbn;
                                            now rewrite Hcc).
  rewrite HL2, HL1 in *. specialize (IH ltac:(lia)). lia.
Qed.

Lemma gbind_inv (A B : Type) (m : Gen A) (k : A -> Gen B) (s s' : t)
  (ys : list Cell) (b : B) :
  gbind m k s = (ys, Ok (b, s')) ->
  exists ys1 a s1 ys2,
    m s = (ys1, Ok (a, s1)) /\ k a s1 = (ys2, Ok (b, s'))
    /\ ys = ys1 ++ ys2.
Proof.
  unfold gbind. destruct (m s) as [ys1 [[a s1]| |]]; [|discriminate..].
  destruct (k a s1) as [ys2 r] eqn:E. intros H. injection H as <- ->.
  now exists ys1, a, s1, ys2.
Qed.

Lemma iter_final (fuel : nat) :
  forall s ys x s',
    __iter__ unescape fuel s = (ys, Ok (x, s')) ->
    length (worksheet_lines s') <= pos s'.
Proof.
  induction fuel as [|fuel IH]; intros s ys x s' H; [discriminate|].
  cbn [__iter__] in H.
  apply gbind_inv in H as (ys1 & fin & s1 & ys2 & Hfin & H & _).
  unfold call, is_finished in Hfin. injection Hfin as _ <- <-.
  destruct (Nat.leb_spec (length (worksheet_lines s)) (pos s)) as [Hle|Hlt];
    cbn [negb] in H.
  - unfold gret in H. now injection H as _ _ <-.
  - apply gbind_inv in H as (? & ? & s2 & ? & _ & H & _).
    exact (IH _ _ _ _ H).
Qed.

End Ending.

(** X4: a parse ends normally only on the empty document or on a document
    whose last line is exactly the close marker "}}}". *)
Theorem X4_normal_end_after_close
  (unescape : pystr -> pystr) (ws : pystr) :
  snd (WorksheetParser.cells unescape ws) = Ok tt ->
  ws = [] \/ exists pre, splitlines false ws = pre ++ [py "}}}"].
Proof.
  intros H. unfold WorksheetParser.cells in H.
  destruct (parse_yields unescape ws
              (Nat.lt_succ_diag_r (length (splitlines false ws))))
    as (_ & _ & _ & Hend).
  destruct (Hend H) as [Hnil|(l & Hl & Hb)].
  - left. now apply splitlines_nil.
  - right.
    assert (Hnb : no_linebreak l = true)
      by exact (nth_error_Forall _ (splitlines_no_linebreak ws) Hl).
    apply CELL_BACK_exact in Hb; [|exact Hnb]. subst l.
    now apply nth_error_last_app.
Qed.

Lemma X4_normal_end_after_close_witness :
  py "{{{id=3|\nx = 1\n///\n4\n}}}" = []
  \/ exists pre,
       splitlines false (py "{{{id=3|\nx = 1\n///\n4\n}}}")
       = pre ++ [py "}}}"].
Proof.
  apply (X4_normal_end_after_close (fun s => s)).
  vm_compute. reflexivity.
Defined.

(** X5: a parse yields at most one ComputeCell for every three lines of
    the document. *)
Theorem X5_compute_cells_bounded
  (unescape : pystr -> pystr) (ws : pystr) :
  3 * count_compute (fst (WorksheetParser.cells unescape ws))
  <= length (splitlines false ws).
Proof.
  unfold WorksheetParser.cells, WorksheetParser.parse.
  pose proof (@iter_count unescape (S (length (splitlines false ws)))
                (WorksheetParser.__init__ ws)) as H.
  cbn [WorksheetParser.__init__ WorksheetParser.worksheet_lines
       WorksheetParser.pos] in H.
  destruct (WorksheetParser.__iter__ unescape _ _) as [ys [[[] s']| |]];
    cbn [fst] in *; lia.
Qed.

(** X6: a parser is not restartable: after an iteration that ended
    normally, iterating over the same parser again yields no cell and ends
    at once, leaving the parser as it is. *)
Theorem X6_parser_not_restartable
  (unescape : pystr -> pystr) (fuel fuel' : nat)
  (s s' : WorksheetParser.t) (ys : list Cell) :
  WorksheetParser.__iter__ unescape fuel s = (ys, Ok (tt, s')) ->
  0 < fuel' ->
  WorksheetParser.__iter__ unescape fuel' s' = ([], Ok (tt, s')).
Proof.
  intros H Hf. pose proof (iter_final _ _ _ H) as Hfin.
  destruct s' as [L p i]. now apply iter_finished.
Qed.

Lemma X6_parser_not_restartable_witness :
  WorksheetParser.__iter__ (fun s => s) 1
    (WorksheetParser.Build
       (splitlines false (py "{{{id=3|\nx = 1\n///\n4\n}}}")) 5 3)
  = ([], Ok (tt, WorksheetParser.Build
                   (splitlines false (py "{{{id=3|\nx = 1\n///\n4\n}}}"))
                   5 3)).
Proof.
  apply (@X6_parser_not_restartable (fun s => s) 6 1
           (WorksheetParser.__init__ (py "{{{id=3|\nx = 1\n///\n4\n}}}"))
           _ [Compute (ComputeCell.Build 3 (py "x = 1") (py "4"))]).
  - vm_compute. reflexivity.
  - lia.
Defined.

(** ** Documents that do not end on a complete cell *)

Section Failures.

Import WorksheetParser.

Variable unescape : pystr -> pystr.

(** A read loop over lines the marker test rejects, up to the position
    where the test raises. *)
Lemma accumulate_run_raise (m : M bool) (L : list pystr) (i : Z) (e : exn)
  (body : list pystr) :
  forall (p : nat) (acc : list pystr) (fuel : nat) (post : list pystr),
    skipn p L = body ++ post ->
    (forall k l, In l body -> nth_error L k = Some l ->
                 m (Build L k i) = Ok (false, Build L k i)) ->
    m (Build L (p + length body) i) = Raise e ->
    length body < fuel ->
    accumulate fuel (or_ m is_finished) acc (Build L p i) = Raise e.
Proof.
  induction body as [|b body IH]; intros p acc fuel post Hs Hrej Hraise Hf;
    (destruct fuel as [|fuel]; [cbn in Hf; lia|]); cbn [accumulate length] in *.
  - rewrite Nat.add_0_r in *. unfold or_, bind. now rewrite Hraise.
  - cbn [app] in Hs.
    destruct (@skipn_cons_nth _ _ _ _ _ Hs) as (Hn & Hs' & Hp).
    unfold or_, bind at 1 2.
    rewrite (Hrej p b (or_introl eq_refl) Hn).
    rewrite (is_finished_in_range L i Hp).
    unfold get_line_and_forward, bind at 1 2 3, line.
    cbn [worksheet_lines pos]. rewrite Hn.
    cbn [forward ret worksheet_lines pos index].
    fold (or_ m is_finished).
    apply (IH (p + 1) (acc ++ [b]) fuel post); auto.
    + intros k l Hl. apply Hrej. now right.
    + replace (p + 1 + length body) with (p + S (length body)) by lia.
      exact Hraise.
    + lia.
Qed.

Lemma line_past_end (L : list pystr) (p : nat) :
  length L <= p -> nth_error L p = None.
Proof. apply nth_error_None. Qed.

Lemma front_past_end (L : list pystr) (p : nat) (i : Z) :
  length L <= p -> is_cell_front (Build L p i) = Raise IndexError.
Proof.
  intros H. unfold is_cell_front, bind, line. cbn [worksheet_lines pos].
  now rewrite (line_past_end L H).
Qed.

Lemma mid_past_end (L : list pystr) (p : nat) (i : Z) :
  length L <= p -> is_cell_mid (Build L p i) = Raise IndexError.
Proof.
  intros H. unfold is_cell_mid, bind, line. cbn [worksheet_lines pos].
  now rewrite (line_past_end L H).
Qed.

Lemma back_past_end (L : list pystr) (p : nat) (i : Z) :
  length L <= p -> is_cell_back (Build L p i) = Raise IndexError.
Proof.
  intros H. unfold is_cell_back, bind, line. cbn [worksheet_lines pos].
  now rewrite (line_past_end L H).
Qed.

Lemma skipn_length_eq (A : Type) (L body : list A) (p : nat) :
  skipn p L = body -> length L <= p + length body.
Proof. intros H. rewrite <- H, length_skipn. lia. Qed.

Lemma front_rejects (L : list pystr) (i : Z) (text : list pystr) :
  Forall (fun l => CELL_FRONT l = None) text ->
  forall k l, In l text -> nth_error L k = Some l ->
              is_cell_front (Build L k i) = Ok (false, Build L k i).
Proof.
  intros H k l Hin Hn. apply front_reject with (l := l); [|exact Hn].
  rewrite Forall_forall in H. now apply H.
Qed.

(** Narrative lines up to the end of the document. *)
Lemma try_read_text_end (L text : list pystr) (p fuel : nat) (i : Z) :
  skipn p L = text ->
  Forall (fun l => CELL_FRONT l = None) text ->
  length text < fuel ->
  _try_read_text unescape fuel (Build L p i) = Raise IndexError.
Proof.
  intros Hs Htext Hf. unfold _try_read_text, bind.
  rewrite (@accumulate_run_raise is_cell_front L i IndexError text p []
             fuel []); auto.
  - now rewrite app_nil_r.
  - now apply front_rejects.
  - apply front_past_end. now apply skipn_length_eq.
Qed.

(** Narrative lines up to an open marker without digits. *)
Lemma try_read_text_malformed (L text post : list pystr) (p fuel : nat)
  (i : Z) :
  skipn p L = text ++ py "{{{id=|" :: post ->
  Forall (fun l => CELL_FRONT l = None) text ->
  length text < fuel ->
  _try_read_text unescape fuel (Build L p i) = Raise ValueError.
Proof.
  intros Hs Htext Hf. unfold _try_read_text, bind.
  rewrite (@accumulate_run_raise is_cell_front L i ValueError text p []
             fuel _ Hs); auto.
  - now apply front_rejects.
  - destruct (@skipn_cons_nth _ _ _ _ _ (@skipn_app_skip _ _ _ _ _ Hs))
      as (Hn & _).
    now rewrite (@is_cell_front_unfold (Build L (p + length text) i) _ Hn).
Qed.

(** An input that runs to the end of the document without a mid marker. *)
Lemma read_cell_input_end (L inp : list pystr) (ds : pystr) (p fuel : nat)
  (i : Z) :
  skipn p L = (py "{{{id=" ++ ds ++ py "|") :: inp ->
  Forall (fun l => CELL_MID l = false) inp ->
  ds <> [] -> forallb is_digit ds = true -> within_limit ds = true ->
  length inp < fuel ->
  _read_cell_input unescape fuel (Build L p i) = Raise IndexError.
Proof.
  intros Hs Hinp Hne Hd Hlim Hf.
  destruct (@skipn_cons_nth _ _ _ _ _ Hs) as (Hn & Hs' & Hp).
  unfold _read_cell_input, assert_, bind at 1 2.
  rewrite (@front_accept L p i ds Hne Hd Hlim Hn).
  unfold bind at 1. cbn [ret forward worksheet_lines pos index]. unfold bind.
  rewrite (@accumulate_run_raise is_cell_mid L (digits_value ds) IndexError
             inp (p + 1) [] fuel []); auto.
  - now rewrite app_nil_r.
  - intros k l Hin Hk. rewrite (@mid_at L k _ l Hk).
    rewrite Forall_forall in Hinp. now rewrite (Hinp l Hin).
  - apply mid_past_end. now apply skipn_length_eq.
Qed.

(** An output that runs to the end of the document without a close
    marker. *)
Lemma read_cell_output_end (L out : list pystr) (p fuel : nat) (i : Z) :
  skipn p L = py "///" :: out ->
  Forall (fun l => CELL_BACK l = false) out ->
  length out < fuel ->
  _read_cell_output unescape fuel (Build L p i) = Raise IndexError.
Proof.
  intros Hs Hout Hf.
  destruct (@skipn_cons_nth _ _ _ _ _ Hs) as (Hn & Hs' & Hp).
  unfold _read_cell_output, assert_, bind at 1 2.
  rewrite (@mid_at L p i _ Hn).
  change (CELL_MID (py "///")) with true.
  unfold bind at 1. cbn [ret forward worksheet_lines pos index]. unfold bind.
  rewrite (@accumulate_run_raise is_cell_back L i IndexError out (p + 1) []
             fuel []); auto.
  - now rewrite app_nil_r.
  - intros k l Hin Hk. rewrite (@back_at L k _ l Hk).
    rewrite Forall_forall in Hout. now rewrite (Hout l Hin).
  - apply back_past_end. now apply skipn_length_eq.
Qed.

(** The parse of a document that begins with well-formed segments, from
    what the loop does after them. *)
Lemma cells_after_segments (ws : pystr) (segs : list Spec.segment)
  (tail : list pystr) (zs : list Cell) (e : exn) :
  Forall Spec.seg_wf segs ->
  splitlines false ws = flat_map Spec.seg_lines segs ++ tail ->
  tail <> [] ->
  (forall fuel i,
      length tail < fuel ->
      iter_body unescape fuel
        (Build (splitlines false ws)
               (length (flat_map Spec.seg_lines segs)) i)
      = (zs, Raise e)) ->
  cells unescape ws = (flat_map (Spec.seg_cells unescape) segs ++ zs, Raise e).
Proof.
  intros Hwf Hs Hne Hbody. unfold cells, parse, __init__.
  set (L := splitlines false ws) in *.
  destruct (@iter_segments unescape L segs 0 (S (length L)) (-1)%Z tail
              Hwf Hs ltac:(lia))
    as (i' & fuel' & Hf' & Hrun).
  rewrite Hrun. cbn [Nat.add] in *.
  assert (Hlen : length L = length (flat_map Spec.seg_lines segs)
                            + length tail)
    by (rewrite Hs; apply length_app).
  assert (Hlt : length (flat_map Spec.seg_lines segs) < length L).
  { rewrite Hlen. destruct tail; [congruence | cbn [length]; lia]. }
  destruct fuel' as [|fuel']; [lia|]. cbn [__iter__].
  rewrite (@gbind_call_ok _ _ _ _ _ _ _
             (@is_finished_in_range L _ i' Hlt)).
  cbn [negb]. unfold gbind. rewrite Hbody by lia. reflexivity.
Qed.

End Failures.

Section FailureCases.

Import WorksheetParser.

Variable unescape : pystr -> pystr.

Lemma skipn_prefix (A : Type) (a r : list A) : skipn (length a) (a ++ r) = r.
Proof. now rewrite skipn_app, skipn_all, Nat.sub_diag. Qed.

Lemma text_cells_option (text : list pystr) :
  option_to_list
    (match Spec.trimmed text with
     | [] => None
     | _ :: _ => Some (TextCell (unescape (Spec.trimmed text)))
     end)
  = text_cells unescape text.
Proof. unfold text_cells. now destruct (Spec.trimmed text). Qed.

Lemma iter_body_trailing_text (L pre text : list pystr) (fuel : nat) (i : Z) :
  L = pre ++ text ->
  Forall (fun l => CELL_FRONT l = None) text ->
  length text < fuel ->
  iter_body unescape fuel (Build L (length pre) i) = ([], Raise IndexError).
Proof.
  intros -> Htext Hf. rewrite iter_body_cases.
  now rewrite (@try_read_text_end unescape _ text _ fuel i
                 (skipn_prefix pre text) Htext Hf).
Qed.

Lemma iter_body_malformed (L pre text post : list pystr) (fuel : nat)
  (i : Z) :
  L = pre ++ text ++ py "{{{id=|" :: post ->
  Forall (fun l => CELL_FRONT l = None) text ->
  length text < fuel ->
  iter_body unescape fuel (Build L (length pre) i) = ([], Raise ValueError).
Proof.
  intros -> Htext Hf. rewrite iter_body_cases.
  now rewrite (@try_read_text_malformed unescape _ text post _ fuel i
                 (skipn_prefix pre _) Htext Hf).
Qed.

Lemma iter_body_truncated (L pre text rest : list pystr) (ds : pystr)
  (fuel : nat) (i : Z) :
  L = pre ++ text ++ (py "{{{id=" ++ ds ++ py "|") :: rest ->
  Forall (fun l => CELL_FRONT l = None) text ->
  ds <> [] -> forallb is_digit ds = true -> within_limit ds = true ->
  Forall (fun l => CELL_MID l = false) rest
  \/ (exists inp out,
         rest = inp ++ py "///" :: out
         /\ Forall (fun l => CELL_MID l = false) inp
         /\ Forall (fun l => CELL_BACK l = false) out) ->
  length text + 1 + length rest < fuel ->
  iter_body unescape fuel (Build L (length pre) i)
  = (text_cells unescape text, Raise IndexError).
Proof.
  intros -> Htext Hne Hd Hlim Hrest Hf. rewrite iter_body_cases.
  pose proof (skipn_prefix pre
                (text ++ (py "{{{id=" ++ ds ++ py "|") :: rest)) as Hs.
  rewrite (@try_read_text_run unescape _ text rest ds _ fuel i Hs Htext
             Hne Hd Hlim ltac:(lia)).
  apply skipn_app_skip in Hs.
  rewrite text_cells_option. unfold _read_cell, bind at 1.
  destruct Hrest as [Hmid|(inp & out & -> & Hinp & Hout)].
  - now rewrite (@read_cell_input_end unescape _ rest ds _ fuel _ Hs Hmid
                   Hne Hd Hlim ltac:(lia)).
  - rewrite length_app in Hf. cbn [length] in Hf.
    rewrite (@read_cell_input_run unescape _ inp out ds _ fuel _ Hs Hinp
               Hne Hd Hlim ltac:(lia)).
    destruct (@skipn_cons_nth _ _ _ _ _ Hs) as (_ & Hs1 & _).
    apply skipn_app_skip in Hs1.
    unfold bind at 1.
    now rewrite (@read_cell_output_end unescape _ out _ fuel _ Hs1 Hout
                   ltac:(lia)).
Qed.

End FailureCases.

(** X7: narrative lines after the last complete cell (or a document with
    no cell at all) make the parse raise [IndexError] once the cells of the
    well-formed segments before them have been yielded; no TextCell is
    produced for these lines.  (A well-formed segment has an open marker
    whose digit run [int] converts, see [Spec.seg_wf].) *)
Theorem X7_trailing_text_raises
  (unescape : pystr -> pystr) (ws : pystr) (segs : list Spec.segment)
  (text : list pystr) :
  Forall Spec.seg_wf segs ->
  splitlines false ws = flat_map Spec.seg_lines segs ++ text ->
  text <> [] ->
  Forall (fun l => CELL_FRONT l = None) text ->
  WorksheetParser.cells unescape ws
  = (flat_map (Spec.seg_cells unescape) segs, Raise IndexError).
Proof.
  intros Hwf Hs Hne Htext.
  rewrite (@cells_after_segments unescape ws segs text [] IndexError
             Hwf Hs Hne).
  - now rewrite app_nil_r.
  - intros fuel i Hf. now apply iter_body_trailing_text with (text := text).
Qed.

Lemma X7_trailing_text_raises_witness :
  WorksheetParser.cells (fun s => s) (py "{{{id=1|\nfoo\n///\nbar\n}}}\nbye")
  = ([Compute (ComputeCell.Build 1 (py "foo") (py "bar"))], Raise IndexError).
Proof.
  apply (@X7_trailing_text_raises (fun s => s)
           (py "{{{id=1|\nfoo\n///\nbar\n}}}\nbye")
           [Spec.Segment [] (py "1") [py "foo"] [py "bar"]] [py "bye"]).
  - repeat constructor. discriminate.
  - reflexivity.
  - discriminate.
  - repeat constructor.
Defined.

(** X8: an open marker without digits, "{{{id=|", met while narrative text
    is read makes the parse raise [ValueError] once the cells of the
    well-formed segments before it have been yielded; the narrative lines
    in front of the marker are lost.  (A well-formed segment has an open
    marker whose digit run [int] converts, see [Spec.seg_wf].) *)
Theorem X8_marker_without_digits_raises
  (unescape : pystr -> pystr) (ws : pystr) (segs : list Spec.segment)
  (text post : list pystr) :
  Forall Spec.seg_wf segs ->
  splitlines false ws
  = flat_map Spec.seg_lines segs ++ text ++ py "{{{id=|" :: post ->
  Forall (fun l => CELL_FRONT l = None) text ->
  WorksheetParser.cells unescape ws
  = (flat_map (Spec.seg_cells unescape) segs, Raise ValueError).
Proof.
  intros Hwf Hs Htext.
  rewrite (@cells_after_segments unescape ws segs _ [] ValueError Hwf Hs).
  - now rewrite app_nil_r.
  - now destruct text.
  - intros fuel i Hf. apply iter_body_malformed with (text := text) (post := post);
      auto.
    rewrite length_app in Hf. lia.
Qed.

Lemma X8_marker_without_digits_raises_witness :
  WorksheetParser.cells (fun s => s) (py "intro\n{{{id=|\nx\n///\n}}}")
  = ([], Raise ValueError).
Proof.
  apply (@X8_marker_without_digits_raises (fun s => s)
           (py "intro\n{{{id=|\nx\n///\n}}}") [] [py "intro"]
           [py "x"; py "///"; py "}}}"]).
  - constructor.
  - reflexivity.
  - repeat constructor.
Defined.

(** X9: a cell that the document ends in before its mid marker or before
    its close marker makes the parse raise [IndexError]: the cells of the
    well-formed segments before it and the TextCell of the narrative lines
    in front of it are yielded, the cell itself is not.  (The digit run of
    its open marker is one that [int] converts.) *)
Theorem X9_truncated_cell_raises
  (unescape : pystr -> pystr) (ws : pystr) (segs : list Spec.segment)
  (text rest : list pystr) (ds : pystr) :
  Forall Spec.seg_wf segs ->
  splitlines false ws
  = flat_map Spec.seg_lines segs
    ++ text ++ (py "{{{id=" ++ ds ++ py "|") :: rest ->
  Forall (fun l => CELL_FRONT l = None) text ->
  ds <> [] -> forallb is_digit ds = true -> within_limit ds = true ->
  Forall (fun l => CELL_MID l = false) rest
  \/ (exists inp out,
         rest = inp ++ py "///" :: out
         /\ Forall (fun l => CELL_MID l = false) inp
         /\ Forall (fun l => CELL_BACK l = false) out) ->
  WorksheetParser.cells unescape ws
  = (flat_map (Spec.seg_cells unescape) segs ++ text_cells unescape text,
     Raise IndexError).
Proof.
  intros Hwf Hs Htext Hne Hd Hlim Hrest.
  apply (@cells_after_segments unescape ws segs _ _ IndexError Hwf Hs).
  - now destruct text.
  - intros fuel i Hf.
    apply iter_body_truncated with (rest := rest) (ds := ds); auto.
    rewrite length_app in Hf. cbn [length] in Hf. lia.
Qed.

Lemma X9_truncated_cell_raises_witness :
  WorksheetParser.cells (fun s => s) (py "Hello\n{{{id=1|\nfoo\n///\nbar")
  = ([TextCell (py "Hello")], Raise IndexError).
Proof.
  apply (@X9_truncated_cell_raises (fun s => s)
           (py "Hello\n{{{id=1|\nfoo\n///\nbar") [] [py "Hello"]
           [py "foo"; py "///"; py "bar"] (py "1")).
  - constructor.
  - reflexivity.
  - repeat constructor.
  - discriminate.
  - reflexivity.
  - reflexivity.
  - right. exists [py "foo"], [py "bar"]. repeat constructor.
Defined.

(** ** The cell views on well-formed input *)

Section Views.

Import ComputeCell.

Lemma find_unfold (s sub : pystr) :
  find s sub
  = if startswith s sub then 0%Z
    else match s with
         | [] => (-1)%Z
         | _ :: r => if (find r sub <? 0)%Z then (-1)%Z
                     else (find r sub + 1)%Z
         end.
Proof. destruct s; reflexivity. Qed.

Lemma startswith_self (sub r : pystr) : startswith (sub ++ r) sub = true.
Proof.
  induction sub as [|d sub IH]; [reflexivity|].
  cbn. now rewrite N.eqb_refl.
Qed.

Lemma find_at_start (sub r : pystr) : find (sub ++ r) sub = 0%Z.
Proof. rewrite find_unfold. now rewrite startswith_self. Qed.

Lemma find_tag_free_app (a s sub : pystr) :
  tag_free a = true -> startswith sub [60%N] = true ->
  find (a ++ s) sub
  = if (find s sub <? 0)%Z then (-1)%Z
    else (Z.of_nat (length a) + find s sub)%Z.
Proof.
  intros Ha Hsub. destruct sub as [|d sub]; [discriminate|].
  cbn in Hsub. rewrite andb_true_r in Hsub. apply N.eqb_eq in Hsub. subst d.
  induction a as [|c a IH].
  - cbn [app length]. pose proof (find_lower s (60%N :: sub)).
    destruct (Z.ltb_spec (find s (60%N :: sub)) 0); lia.
  - cbn in Ha. apply andb_prop in Ha as [Hc Ha]. apply negb_true_iff in Hc.
    cbn [app]. rewrite find_unfold. cbn [startswith]. rewrite Hc. cbn [andb].
    rewrite (IH Ha).
    destruct (Z.ltb_spec (find s (60%N :: sub)) 0) as [Hlt|Hge];
      [reflexivity|].
    destruct (Z.ltb_spec (Z.of_nat (length a) + find s (60%N :: sub)) 0);
      [lia|]. cbn [length]. lia.
Qed.

Lemma find_tag_free (a sub : pystr) :
  tag_free a = true -> startswith sub [60%N] = true ->
  find a sub = (-1)%Z.
Proof.
  intros Ha Hsub. rewrite <- (app_nil_r a).
  rewrite (find_tag_free_app a [] sub Ha Hsub).
  destruct sub as [|d sub]; [discriminate | reflexivity].
Qed.

Lemma tag_free_app (a b : pystr) :
  tag_free (a ++ b) = tag_free a && tag_free b.
Proof. apply forallb_app. Qed.

Lemma find_open (a r : pystr) :
  tag_free a = true ->
  find (a ++ py "<html>" ++ r) (py "<html>") = Z.of_nat (length a).
Proof.
  intros Ha. rewrite (find_tag_free_app a _ (py "<html>") Ha eq_refl).
  rewrite find_at_start. cbn. lia.
Qed.

Lemma find_close (a b r : pystr) :
  tag_free a = true -> tag_free b = true ->
  find (a ++ py "<html>" ++ b ++ py "</html>" ++ r) (py "</html>")
  = Z.of_nat (length a + 6 + length b).
Proof.
  intros Ha Hb. rewrite (find_tag_free_app a _ (py "</html>") Ha eq_refl).
  assert (E : find (py "<html>" ++ b ++ py "</html>" ++ r) (py "</html>")
              = Z.of_nat (6 + length b)).
  { change (py "<html>" ++ b ++ py "</html>" ++ r)
      with (60%N :: (py "html>" ++ b) ++ py "</html>" ++ r).
    rewrite find_unfold.
    change (startswith (60%N :: (py "html>" ++ b) ++ py "</html>" ++ r)
              (py "</html>")) with false.
    cbv iota.
    rewrite (find_tag_free_app (py "html>" ++ b) _ (py "</html>")).
    - rewrite find_at_start. cbn [Z.ltb Z.compare].
      rewrite length_app. cbn [length py]. cbn. lia.
    - rewrite tag_free_app. now rewrite Hb.
    - reflexivity. }
  rewrite E. destruct (Z.ltb_spec (Z.of_nat (6 + length b)) 0); lia.
Qed.

Lemma html_loop_unfold (s t : pystr) :
  html_loop s t
  = match s with
    | [] => t
    | _ :: _ =>
        if (find s (py "<html>") =? -1)%Z then t ++ s
        else if (find s (py "</html>") =? -1)%Z
             then t ++ slice_to s (find s (py "<html>"))
             else html_loop (slice_from s (find s (py "</html>") + 7))
                            (t ++ slice_to s (find s (py "<html>")))
    end.
Proof.
  funelim (html_loop s t); try reflexivity;
    repeat match goal with
           | H : (find ?x ?y =? -1)%Z = _
             |- context [(find ?x ?y =? -1)%Z] => rewrite H
           end;
    reflexivity.
Qed.

Lemma html_loop_nonempty (s t : pystr) :
  s <> [] ->
  html_loop s t
  = if (find s (py "<html>") =? -1)%Z then t ++ s
    else if (find s (py "</html>") =? -1)%Z
         then t ++ slice_to s (find s (py "<html>"))
         else html_loop (slice_from s (find s (py "</html>") + 7))
                        (t ++ slice_to s (find s (py "<html>"))).
Proof.
  intros Hs. rewrite html_loop_unfold. destruct s; [congruence | reflexivity].
Qed.

Lemma clip_nat (s : pystr) (n : nat) :
  n <= length s -> clip s (Z.of_nat n) = n.
Proof.
  intros H. unfold clip.
  destruct (Z.ltb_spec (Z.of_nat n) 0); lia.
Qed.

Lemma slice_to_app (a r : pystr) : slice_to (a ++ r) (Z.of_nat (length a)) = a.
Proof.
  unfold slice_to. rewrite clip_nat by (rewrite length_app; lia).
  now rewrite firstn_app, firstn_all, Nat.sub_diag, app_nil_r.
Qed.

Lemma slice_from_app (a r : pystr) :
  slice_from (a ++ r) (Z.of_nat (length a)) = r.
Proof.
  unfold slice_from. rewrite clip_nat by (rewrite length_app; lia).
  now rewrite skipn_app, skipn_all, Nat.sub_diag.
Qed.

(** One turn of the loop over a text piece and a closed region. *)
Lemma html_loop_region (a b r t : pystr) :
  tag_free a = true -> tag_free b = true ->
  html_loop (a ++ py "<html>" ++ b ++ py "</html>" ++ r) t
  = html_loop r (t ++ a).
Proof.
  intros Ha Hb. rewrite html_loop_nonempty by (now destruct a).
  rewrite (find_open a _ Ha), (find_close a b r Ha Hb).
  destruct (Z.eqb_spec (Z.of_nat (length a)) (-1)); [lia|].
  destruct (Z.eqb_spec (Z.of_nat (length a + 6 + length b)) (-1)); [lia|].
  rewrite slice_to_app.
  replace (a ++ py "<html>" ++ b ++ py "</html>" ++ r)
    with ((a ++ py "<html>" ++ b ++ py "</html>") ++ r)
    by (now rewrite <- !app_assoc).
  replace (Z.of_nat (length a + 6 + length b) + 7)%Z
    with (Z.of_nat (length (a ++ py "<html>" ++ b ++ py "</html>"))).
  - now rewrite slice_from_app.
  - rewrite !length_app. cbn [length py]. cbn. lia.
Qed.

(** The end of the loop: a last text piece, then possibly an opening tag
    that is never closed. *)
Lemma html_loop_last (last t : pystr) (unclosed : option pystr) :
  tag_free last = true ->
  match unclosed with Some junk => tag_free junk = true | None => True end ->
  html_loop (last ++ match unclosed with
                     | Some junk => py "<html>" ++ junk
                     | None => []
                     end) t
  = t ++ last.
Proof.
  intros Hl Hu. destruct unclosed as [junk|].
  - rewrite html_loop_nonempty by (now destruct last).
    rewrite (find_open last junk Hl).
    destruct (Z.eqb_spec (Z.of_nat (length last)) (-1)); [lia|].
    rewrite (find_tag_free_app last _ (py "</html>") Hl eq_refl).
    change (py "<html>" ++ junk) with (60%N :: py "html>" ++ junk).
    rewrite (find_unfold (60%N :: _)).
    change (startswith (60%N :: py "html>" ++ junk) (py "</html>"))
      with false.
    cbv iota.
    rewrite (find_tag_free (py "html>" ++ junk) (py "</html>"));
      [|rewrite tag_free_app; now rewrite Hu | reflexivity].
    cbn [Z.ltb Z.compare Z.eqb]. now rewrite slice_to_app.
  - rewrite app_nil_r. apply html_loop_no_open.
    now apply find_tag_free.
Qed.

Lemma html_loop_regions (regions : list (pystr * pystr)) (last t : pystr)
  (unclosed : option pystr) :
  Forall (fun ab => tag_free (fst ab) = true /\ tag_free (snd ab) = true)
         regions ->
  tag_free last = true ->
  match unclosed with Some junk => tag_free junk = true | None => True end ->
  html_loop (regions_output regions last unclosed) t
  = t ++ concat (map fst regions) ++ last.
Proof.
  intros Hr Hl Hu. revert t. unfold regions_output.
  induction Hr as [|[a b] regions [Ha Hb] _ IH]; intros t; cbn [map concat].
  - now apply html_loop_last.
  - cbn [fst snd] in *. rewrite <- !app_assoc.
    rewrite (html_loop_region a b _ t Ha Hb).
    rewrite IH. now rewrite <- app_assoc.
Qed.

Lemma tag_free_concat (l : list pystr) :
  Forall (fun a => tag_free a = true) l -> tag_free (concat l) = true.
Proof.
  induction 1 as [|a l Ha _ IH]; [reflexivity|].
  cbn [concat]. rewrite tag_free_app. now rewrite Ha, IH.
Qed.

End Views.

(** X10: on an output made of text pieces and regions between "<html>" and
    "</html>", where neither the pieces nor the insides of the regions
    contain the character "<", [plain_text_output] returns the text pieces
    joined together; an opening tag that is never closed takes everything
    after it with it. *)
Theorem X10_plain_text_output_regions
  (self : ComputeCell.t) (regions : list (pystr * pystr)) (last : pystr)
  (unclosed : option pystr) :
  Forall (fun ab => tag_free (fst ab) = true /\ tag_free (snd ab) = true)
         regions ->
  tag_free last = true ->
  match unclosed with Some junk => tag_free junk = true | None => True end ->
  ComputeCell.plain_text_output
    (with_output self (regions_output regions last unclosed))
  = concat (map fst regions) ++ last.
Proof.
  intros Hr Hl Hu. unfold ComputeCell.plain_text_output.
  cbn [with_output ComputeCell.output].
  rewrite (@html_loop_regions regions last [] unclosed Hr Hl Hu). cbn [app].
  apply remove_no_occurrence. apply find_tag_free; [|reflexivity].
  rewrite tag_free_app, Hl, andb_true_r. apply tag_free_concat.
  rewrite Forall_map. eapply Forall_impl; [|exact Hr]. now intros ab [Ha _].
Qed.

Lemma X10_plain_text_output_regions_witness :
  ComputeCell.plain_text_output
    (ComputeCell.Build 0 (py "")
       (py "a<html>b</html>c<html>d</html>e<html>f"))
  = py "ace".
Proof.
  apply (@X10_plain_text_output_regions
           (ComputeCell.Build 0 (py "") (py ""))
           [(py "a", py "b"); (py "c", py "d")] (py "e") (Some (py "f"))).
  - repeat constructor.
  - reflexivity.
  - reflexivity.
Defined.

(** X11: an output without an opening tag only loses its closing tags:
    [plain_text_output] returns it with every "</html>" removed, and
    unchanged when it has no closing tag either. *)
Theorem X11_plain_text_output_without_open (self : ComputeCell.t) :
  find (ComputeCell.output self) (py "<html>") = (-1)%Z ->
  ComputeCell.plain_text_output self
  = remove (ComputeCell.output self) (py "</html>")
  /\ (find (ComputeCell.output self) (py "</html>") = (-1)%Z ->
      ComputeCell.plain_text_output self = ComputeCell.output self).
Proof.
  intros H. unfold ComputeCell.plain_text_output.
  rewrite (html_loop_no_open _ [] H). cbn [app].
  split; [reflexivity | apply remove_no_occurrence].
Qed.

Lemma X11_plain_text_output_without_open_witness :
  ComputeCell.plain_text_output (ComputeCell.Build 0 (py "") (py "1</html>2"))
  = py "12".
Proof.
  apply (proj1 (X11_plain_text_output_without_open
                  (ComputeCell.Build 0 (py "") (py "1</html>2")) eq_refl)).
Defined.

(** X12: what [ipython_input] returns never begins with a single percent
    sign: if it begins with a percent sign at all, it begins with two. *)
Theorem X12_ipython_input_no_line_magic (self : ComputeCell.t) :
  startswith (ComputeCell.ipython_input self) (py "%") = true ->
  startswith (ComputeCell.ipython_input self) (py "%%") = true.
Proof.
  rewrite ipython_input_rewrite.
  destruct (rewrite_shape (splitlines_shape (ComputeCell.input self)))
    as (bodies & rest & -> & _ & Hrest).
  destruct bodies as [|b bodies]; cbn [map concat app].
  - rewrite Hrest. discriminate.
  - intros _. reflexivity.
Qed.

Lemma X12_ipython_input_no_line_magic_witness :
  startswith
    (ComputeCell.ipython_input
       (ComputeCell.Build 0 (py "%hide\n%time\nx=1") (py "")))
    (py "%%") = true.
Proof.
  apply (X12_ipython_input_no_line_magic
           (ComputeCell.Build 0 (py "%hide\n%time\nx=1") (py ""))).
  reflexivity.
Defined.

Section LegacyOnly.

Import ComputeCell.

Lemma rewrite_legacy_lines (dirs rest : list pystr) :
  Forall (fun l => startswith l (py "%") = true
                   /\ is_in (strip l) noop_directives = true) dirs ->
  match rest with
  | [] => True
  | l :: _ => startswith l (py "%") = false
  end ->
  Spec.directive_rewrite (dirs ++ rest) = concat rest.
Proof.
  intros Hd Hr. induction Hd as [|d dirs [H1 H2] _ IH]; cbn [app].
  - destruct rest as [|l rest]; [reflexivity|].
    cbn [Spec.directive_rewrite concat]. now rewrite Hr.
  - cbn [Spec.directive_rewrite]. now rewrite H1, H2.
Qed.

End LegacyOnly.

(** X13: when every leading percent line of the input is one of the four
    legacy directives, [ipython_input] returns exactly the lines that
    follow them. *)
Theorem X13_ipython_input_legacy_only
  (self : ComputeCell.t) (dirs rest : list pystr) :
  splitlines true (ComputeCell.input self) = dirs ++ rest ->
  Forall (fun l => startswith l (py "%") = true
                   /\ ComputeCell.is_in (strip l) ComputeCell.noop_directives
                      = true) dirs ->
  match rest with
  | [] => True
  | l :: _ => startswith l (py "%") = false
  end ->
  ComputeCell.ipython_input self = concat rest.
Proof.
  intros Hs Hd Hr. rewrite ipython_input_rewrite, Hs.
  now apply rewrite_legacy_lines.
Qed.

Lemma X13_ipython_input_legacy_only_witness :
  ComputeCell.ipython_input
    (ComputeCell.Build 0 (py "%hide\n%auto \nprint(1)\n%time\n") (py "1"))
  = py "print(1)\n%time\n".
Proof.
  apply (@X13_ipython_input_legacy_only
           (ComputeCell.Build 0 (py "%hide\n%auto \nprint(1)\n%time\n")
                              (py "1"))
           [py "%hide\n"; py "%auto \n"] [py "print(1)\n"; py "%time\n"]).
  - reflexivity.
  - repeat constructor.
  - reflexivity.
Defined.

(** ** The notebook *)

Section Notebook.

Import NotebookSageNB.

Example unique_id_example :
  unique_id (Build (py "/home/admin/3") (py "")
               (Conf (py "admin") 3 (py "Untitled")))
  = Ok (py "admin:3").
Proof. reflexivity. Qed.

Example str_int_examples :
  str_int 0 = Ok (py "0") /\ str_int (-12) = Ok (py "-12")
  /\ str_int 305 = Ok (py "305").
Proof. repeat split. Qed.

Example str_int_beyond_limit : str_int (10 ^ 4300) = Raise ValueError.
Proof. vm_compute. reflexivity. Qed.

Lemma eqb_eq (s t : pystr) : PyStr.eqb s t = true <-> s = t.
Proof.
  revert t. induction s as [|c s IH]; intros [|d t]; cbn;
    try (split; [discriminate | discriminate]); [now split|].
  rewrite andb_true_iff, N.eqb_eq, IH. split.
  - now intros [-> ->].
  - intros H. injection H as -> ->. now split.
Qed.

Lemma eqb_refl (s : pystr) : PyStr.eqb s s = true.
Proof. now apply eqb_eq. Qed.

Lemma eqb_neq (s t : pystr) : PyStr.eqb s t = false <-> s <> t.
Proof.
  destruct (PyStr.eqb s t) eqn:E.
  - apply eqb_eq in E. split; [discriminate | congruence].
  - split; [|reflexivity]. intros _ H. apply eqb_eq in H. congruence.
Qed.

Lemma uint_chars_inj (d e : Decimal.uint) :
  uint_chars d = uint_chars e -> d = e.
Proof.
  revert e. induction d; intros []; cbn; intros H;
    try discriminate; try reflexivity;
    injection H as H; f_equal; now apply IHd.
Qed.

Lemma uint_chars_digits (d : Decimal.uint) :
  forallb is_digit (uint_chars d) = true.
Proof. induction d; cbn; auto. Qed.

Lemma int_text_inj (y z : Z) : int_text y = int_text z -> y = z.
Proof.
  unfold int_text. intros H.
  rewrite <- (DecimalZ.of_to y), <- (DecimalZ.of_to z). f_equal.
  destruct (Z.to_int y) as [d|d], (Z.to_int z) as [e|e].
  - f_equal. now apply uint_chars_inj.
  - pose proof (uint_chars_digits d) as Hd. rewrite H in Hd. discriminate.
  - pose proof (uint_chars_digits e) as He. rewrite <- H in He. discriminate.
  - injection H as H. f_equal. now apply uint_chars_inj.
Qed.

Lemma int_text_chars (z : Z) : forallb int_char (int_text z) = true.
Proof.
  assert (H : forall d, forallb int_char (uint_chars d) = true)
    by (induction d; cbn; auto).
  unfold int_text. destruct (Z.to_int z); cbn; auto.
Qed.

(** Splitting at the last colon is unambiguous. *)
Lemma colon_split (a b x y : pystr) :
  forallb int_char x = true -> forallb int_char y = true ->
  a ++ 58%N :: x = b ++ 58%N :: y -> a = b /\ x = y.
Proof.
  intros Hx Hy. revert b. induction a as [|c a IH]; intros [|d b] H;
    cbn [app] in H.
  - injection H as ->. now split.
  - injection H as <- H. exfalso. rewrite H in Hx.
    rewrite forallb_app in Hx. apply andb_prop in Hx as [_ Hx].
    discriminate.
  - injection H as -> H. exfalso. rewrite <- H in Hy.
    rewrite forallb_app in Hy. apply andb_prop in Hy as [_ Hy].
    discriminate.
  - injection H as -> H. destruct (IH b H) as [-> ->]. now split.
Qed.

Lemma unique_id_cases (nb : t) :
  (unique_id nb
   = Ok (owner (conf nb) ++ py ":" ++ int_text (id_number (conf nb)))
   /\ writable nb = true)
  \/ (unique_id nb = Raise ValueError /\ writable nb = false).
Proof.
  unfold unique_id, str_int, writable.
  destruct (within_limit _); [left | right]; now split.
Qed.

Lemma unique_id_key (a b : t) (u : pystr) :
  unique_id a = Ok u ->
  (unique_id b = Ok u <-> sort_key a = sort_key b).
Proof.
  intros Ha. unfold sort_key. split.
  - intros Hb.
    destruct (unique_id_cases a) as [[Ea _]|[Ea _]]; [|congruence].
    destruct (unique_id_cases b) as [[Eb _]|[Eb _]]; [|congruence].
    rewrite Ea in Ha. rewrite Eb in Hb. injection Ha as <-.
    injection Hb as Hb. apply eq_sym in Hb.
    apply colon_split in Hb; try apply int_text_chars.
    destruct Hb as [-> Hb]. apply int_text_inj in Hb. now rewrite Hb.
  - intros H. injection H as Ho Hi. rewrite <- Ha.
    unfold unique_id. now rewrite Ho, Hi.
Qed.

Lemma str_lt_irrefl (s : pystr) : str_lt s s = false.
Proof.
  induction s as [|c s IH]; [reflexivity|]. cbn.
  now rewrite N.ltb_irrefl, N.eqb_refl.
Qed.

Lemma str_lt_trans (a b c : pystr) :
  str_lt a b = true -> str_lt b c = true -> str_lt a c = true.
Proof.
  revert b c. induction a as [|x a IH]; intros [|y b] [|z c]; cbn;
    try discriminate; try reflexivity.
  destruct (N.ltb_spec x y), (N.ltb_spec y z), (N.ltb_spec x z);
    try reflexivity; try lia;
    destruct (N.eqb_spec x y), (N.eqb_spec y z), (N.eqb_spec x z);
    try discriminate; try lia; intros; eauto.
Qed.

Lemma str_lt_total (a b : pystr) :
  a <> b -> str_lt a b = true \/ str_lt b a = true.
Proof.
  revert b. induction a as [|x a IH]; intros [|y b] H; cbn;
    [congruence | now left | now right |].
  destruct (N.ltb_spec x y); [now left|].
  destruct (N.ltb_spec y x); [now right|].
  assert (x = y) by lia. subst y. rewrite N.eqb_refl.
  apply IH. congruence.
Qed.

Lemma key_lt_irrefl (a : pystr * Z) : key_lt a a = false.
Proof. unfold key_lt. now rewrite eqb_refl, Z.eqb_refl. Qed.

Lemma key_lt_trans (a b c : pystr * Z) :
  key_lt a b = true -> key_lt b c = true -> key_lt a c = true.
Proof.
  destruct a as [a1 a2], b as [b1 b2], c as [c1 c2]. unfold key_lt.
  cbn [fst snd].
  destruct (PyStr.eqb a1 b1) eqn:E1; [apply eqb_eq in E1; subst b1|];
    (destruct (PyStr.eqb a1 c1) eqn:E2; [apply eqb_eq in E2; subst c1|]).
  - destruct (Z.eqb_spec a2 b2), (Z.eqb_spec b2 c2), (Z.eqb_spec a2 c2);
      try discriminate; try lia; rewrite !Z.ltb_lt; lia.
  - destruct (Z.eqb_spec a2 b2); [discriminate|]. auto.
  - rewrite (proj2 (eqb_neq b1 a1)) by (apply eqb_neq in E1; congruence).
    intros H1 H2. pose proof (str_lt_trans _ _ _ H1 H2) as H3.
    rewrite str_lt_irrefl in H3. discriminate.
  - destruct (PyStr.eqb b1 c1) eqn:E3; [apply eqb_eq in E3; subst c1|].
    + intros H _. exact H.
    + apply str_lt_trans.
Qed.

Lemma key_lt_total (a b : pystr * Z) :
  a <> b -> key_lt a b = true \/ key_lt b a = true.
Proof.
  destruct a as [a1 a2], b as [b1 b2]. unfold key_lt. cbn [fst snd].
  intros H. destruct (PyStr.eqb a1 b1) eqn:E1.
  - apply eqb_eq in E1. subst b1. rewrite eqb_refl.
    destruct (Z.eqb_spec a2 b2); [congruence|].
    destruct (Z.eqb_spec b2 a2); [congruence|].
    rewrite !Z.ltb_lt. lia.
  - apply eqb_neq in E1.
    rewrite (proj2 (eqb_neq b1 a1)) by congruence.
    now apply str_lt_total.
Qed.

Lemma find_ok (notebooks : list t) (x : pystr) (nb : t) :
  find notebooks x = Ok nb ->
  exists pre post,
    notebooks = pre ++ nb :: post /\ answers_to x nb
    /\ Forall (fun n => writable n = true /\ ~ answers_to x n) pre.
Proof.
  induction notebooks as [|n rest IH]; cbn [find]; [discriminate|].
  destruct (unique_id_cases n) as [[Eu Hw]|[Eu _]]; rewrite Eu;
    [|discriminate].
  destruct (PyStr.eqb _ x) eqn:E1.
  - intros H. injection H as <-. apply eqb_eq in E1.
    exists [], rest. repeat split; [|constructor].
    left. now rewrite Eu, E1.
  - destruct (PyStr.eqb (name n) x) eqn:E2.
    + intros H. injection H as <-. apply eqb_eq in E2.
      exists [], rest. repeat split; [now right | constructor].
    + intros H. destruct (IH H) as (pre & post & -> & Ha & Hpre).
      exists (n :: pre), post. repeat split; auto.
      constructor; [|exact Hpre]. split; [exact Hw|].
      apply eqb_neq in E1, E2. intros [Hu|Hn]; [|now apply E2].
      rewrite Eu in Hu. injection Hu as Hu. now apply E1.
Qed.


Lemma find_raises (notebooks : list t) (x : pystr) :
  Forall (fun n => writable n = true) notebooks ->
  (find notebooks x = Raise ValueError
   <-> Forall (fun n => ~ answers_to x n) notebooks).
Proof.
  induction 1 as [|n rest Hw _ IH]; cbn [find].
  - split; [constructor | reflexivity].
  - destruct (unique_id_cases n) as [[Eu _]|[_ Hw']]; [|congruence].
    rewrite Eu. destruct (PyStr.eqb _ x) eqn:E1.
    + apply eqb_eq in E1. split; [discriminate|].
      intros H. inversion H as [|? ? Hn _]. elim Hn. left.
      now rewrite Eu, E1.
    + destruct (PyStr.eqb (name n) x) eqn:E2.
      * apply eqb_eq in E2. split; [discriminate|].
        intros H. inversion H as [|? ? Hn _]. elim Hn. now right.
      * apply eqb_neq in E1, E2. rewrite IH. split.
        -- intros H. constructor; [|exact H].
           intros [Hu|Hn]; [|now apply E2].
           rewrite Eu in Hu. injection Hu as Hu. now apply E1.
        -- intros H. now inversion H.
Qed.

Lemma find_total (notebooks : list t) (x : pystr) :
  (exists nb, find notebooks x = Ok nb)
  \/ find notebooks x = Raise ValueError.
Proof.
  induction notebooks as [|n rest IH]; cbn [find]; [now right|].
  destruct (unique_id_cases n) as [[Eu _]|[Eu _]]; rewrite Eu;
    [|now right].
  destruct (PyStr.eqb _ x); [left; eauto|].
  destruct (PyStr.eqb (name n) x); [left; eauto | exact IH].
Qed.

End Notebook.

(** X14: the identity string of a notebook determines its owner and its
    number: when [unique_id] of a notebook returns a text (its number has
    no more digits than the interpreter writes), [unique_id] of another
    notebook returns the same text exactly when the two have the same
    [sort_key]. *)
Theorem X14_unique_id_identifies (a b : NotebookSageNB.t) (u : pystr) :
  NotebookSageNB.unique_id a = Ok u ->
  (NotebookSageNB.unique_id b = Ok u
   <-> NotebookSageNB.sort_key a = NotebookSageNB.sort_key b).
Proof. apply unique_id_key. Qed.

Lemma X14_unique_id_identifies_witness :
  let a := NotebookSageNB.Build (py "/a") (py "")
             (NotebookSageNB.Conf (py "admin") 3 (py "Untitled")) in
  let b := NotebookSageNB.Build (py "/b") (py "x")
             (NotebookSageNB.Conf (py "admin") 3 (py "Copy")) in
  NotebookSageNB.unique_id b = Ok (py "admin:3")
  <-> NotebookSageNB.sort_key a = NotebookSageNB.sort_key b.
Proof.
  cbv zeta. apply X14_unique_id_identifies. reflexivity.
Defined.

(** X15: [__lt__] is a strict total order on the sort keys of notebooks: no
    notebook is below itself, the comparison is transitive and
    asymmetric, and of two notebooks with different sort keys one is below
    the other. *)
Theorem X15_lt_strict_total_order :
  (forall a, NotebookSageNB.__lt__ a a = false)
  /\ (forall a b c,
        NotebookSageNB.__lt__ a b = true ->
        NotebookSageNB.__lt__ b c = true ->
        NotebookSageNB.__lt__ a c = true)
  /\ (forall a b,
        NotebookSageNB.__lt__ a b = true ->
        NotebookSageNB.__lt__ b a = false)
  /\ (forall a b,
        NotebookSageNB.sort_key a <> NotebookSageNB.sort_key b ->
        NotebookSageNB.__lt__ a b = true
        \/ NotebookSageNB.__lt__ b a = true).
Proof.
  unfold NotebookSageNB.__lt__. repeat split.
  - intros a. apply key_lt_irrefl.
  - intros a b c. apply key_lt_trans.
  - intros a b H.
    destruct (NotebookSageNB.key_lt (NotebookSageNB.sort_key b)
                (NotebookSageNB.sort_key a)) eqn:E; [|reflexivity].
    rewrite <- (key_lt_irrefl (NotebookSageNB.sort_key a)).
    now rewrite (key_lt_trans _ _ _ H E).
  - intros a b. apply key_lt_total.
Qed.


(** X17: when every listed notebook has a number the interpreter writes,
    looking up a listed notebook by its identity string does not raise; it
    returns a listed notebook with the same owner and number, unless a
    notebook listed earlier has that string as its name. *)
Theorem X17_find_by_unique_id
  (notebooks : list NotebookSageNB.t) (nb : NotebookSageNB.t) :
  In nb notebooks ->
  Forall (fun n => NotebookSageNB.writable n = true) notebooks ->
  exists u m,
    NotebookSageNB.unique_id nb = Ok u
    /\ NotebookSageNB.find notebooks u = Ok m
    /\ In m notebooks
    /\ (NotebookSageNB.sort_key m = NotebookSageNB.sort_key nb
        \/ NotebookSageNB.name m = u).
Proof.
  intros Hin Hw.
  destruct (unique_id_cases nb) as [[Eu _]|[_ Hn]].
  2:{ rewrite Forall_forall in Hw. rewrite (Hw nb Hin) in Hn. discriminate. }
  eexists. destruct (find_total notebooks
                       (NotebookSageNB.owner (NotebookSageNB.conf nb)
                        ++ py ":"
                        ++ NotebookSageNB.int_text
                             (NotebookSageNB.id_number
                                (NotebookSageNB.conf nb))))
    as [[m Hm]|Hr].
  - exists m. split; [exact Eu|]. split; [exact Hm|].
    destruct (find_ok _ _ Hm) as (pre & post & -> & Ha & _).
    split; [apply in_elt|].
    destruct Ha as [Hu|Hn]; [left | now right].
    apply eq_sym. now apply (unique_id_key nb m Eu).
  - apply (find_raises _ Hw) in Hr. rewrite Forall_forall in Hr.
    elim (Hr nb Hin). now left.
Qed.

Lemma X17_find_by_unique_id_witness :
  let a := NotebookSageNB.Build (py "/a") (py "")
             (NotebookSageNB.Conf (py "admin") 3 (py "Untitled")) in
  let b := NotebookSageNB.Build (py "/b") (py "")
             (NotebookSageNB.Conf (py "admin") 7 (py "Plots")) in
  exists u m,
    NotebookSageNB.unique_id b = Ok u
    /\ NotebookSageNB.find [a; b] u = Ok m
    /\ In m [a; b]
    /\ (NotebookSageNB.sort_key m = NotebookSageNB.sort_key b
        \/ NotebookSageNB.name m = u).
Proof.
  cbv zeta. apply X17_find_by_unique_id.
  - right. left. reflexivity.
  - repeat constructor.
Defined.
